(** * Met collection dashboard: the data-cleaning pass of
      [met_visualization_project.py]

    The script loads one table of museum objects, derives a cleaned
    accession year and a location per row, normalises the location of the
    highlighted rows, and counts rows per group for the charts.  This file
    embeds that pass (lines 36-265 of the script) and states its properties.

    Conventions of the embedding:
    - a Python [str] is a Rocq [string]; its characters are the code points
      below 256;
    - a table cell read by [pd.read_csv(..., dtype=str)] is either a text or
      the missing value [np.nan] (type [cell]);
    - a numeric column entry is [option Z], [None] being [NaN]: the only
      numbers the script produces are integers below 10000, which [float64]
      holds exactly;
    - an uncaught Python exception is the [Raise] case of [result];
    - the tables produced by [value_counts] are finite maps from the group
      key to the count: the order of their rows is not modelled. *)

From Stdlib Require Import ZArith Ascii String.
From stdpp Require Import base tactics option list strings gmap sets.

Local Open Scope string_scope.
Local Open Scope list_scope.
Local Open Scope Z_scope.

(** ** Python values *)

Module Py.

(** Exceptions the script can meet. *)
Inductive exn : Type :=
  | NameError
  | IndexError
  | TypeError
  | LookupError.

(** A computation that returns or raises. *)
Inductive result (A : Type) : Type :=
  | Ok (a : A)
  | Raise (e : exn).
Global Arguments Ok {A} a.
Global Arguments Raise {A} e.

Definition bind {A B : Type} (m : result A) (k : A → result B) : result B :=
  match m with
  | Ok a => k a
  | Raise e => Raise e
  end.

(** [try: body / except: handler], with a bare [except]. *)
Definition try_except {A : Type} (body : result A) (handler : A) : A :=
  match body with
  | Ok a => a
  | Raise _ => handler
  end.

(** A cell of an object column: a text or [np.nan]. *)
Inductive cell : Type :=
  | NaN
  | Str (s : string).

Global Instance cell_eq_dec : EqDecision cell.
Proof. solve_decision. Defined.

(** [str(x)] on a cell: a text is itself, [np.nan] prints as [nan]. *)
Definition str (x : cell) : string :=
  match x with
  | NaN => "nan"
  | Str s => s
  end.

(** Truth value of a text: the empty text is false. *)
Definition truthy (s : string) : bool :=
  match s with
  | EmptyString => false
  | String _ _ => true
  end.

(** [pd.isna] on a cell. *)
Definition isna (x : cell) : bool :=
  match x with
  | NaN => true
  | Str _ => false
  end.

(** [c.isspace()] for the code points below 256: tab to carriage return,
    the four separators U+001C-U+001F, space, U+0085 and U+00A0. *)
Definition isspace (c : ascii) : bool :=
  let n := N_of_ascii c in
  ((9 <=? n) && (n <=? 13))%N || ((28 <=? n) && (n <=? 32))%N
  || (n =? 133)%N || (n =? 160)%N.

(** [needle in s] for texts: [needle] occurs at some position of [s]. *)
Fixpoint contains (needle s : string) : bool :=
  String.prefix needle s ||
  match s with
  | EmptyString => false
  | String _ s' => contains needle s'
  end.

(** The word being scanned, closed when a separator or the end is met. *)
Definition flush (cur : string) : list string :=
  if truthy cur then [cur] else [].

(** [s.split()]: the maximal runs of characters that are not white space. *)
Fixpoint split_scan (cur s : string) : list string :=
  match s with
  | EmptyString => flush cur
  | String c s' =>
      if isspace c then flush cur ++ split_scan "" s'
      else split_scan (cur +:+ String c "") s'
  end.

Definition split (s : string) : list string := split_scan "" s.

(** [s.split(sep)] for a one-character separator: one part more than there
    are separators, empty parts kept. *)
Fixpoint split_on_scan (sep : ascii) (cur s : string) : list string :=
  match s with
  | EmptyString => [cur]
  | String c s' =>
      if Ascii.eqb c sep then cur :: split_on_scan sep "" s'
      else split_on_scan sep (cur +:+ String c "") s'
  end.

Definition split_on (sep : ascii) (s : string) : list string :=
  split_on_scan sep "" s.

(** [xs[i]]: raises [IndexError] out of range. *)
Definition getitem {A : Type} (xs : list A) (i : nat) : result A :=
  match xs !! i with
  | Some x => Ok x
  | None => Raise IndexError
  end.

End Py.

Import Py.
Coercion Str : string >-> cell.

(** [result] with stdpp's monad notation [x ← m; k]. *)
#[global] Instance result_ret : MRet Py.result := λ A a, Ok a.
#[global] Instance result_bind : MBind Py.result := λ A B k m, Py.bind m k.

(** ** The regular expression [[0-9]{4}] *)

Module Re.

(** The class [[0-9]]. *)
Definition digit (c : ascii) : bool :=
  let n := N_of_ascii c in ((48 <=? n) && (n <=? 57))%N.

(** [cls{n}] matched at the start of [s]: the [n] characters matched. *)
Fixpoint match_repeat (cls : ascii → bool) (n : nat) (s : string)
  : option string :=
  match n with
  | O => Some ""
  | S n' =>
      match s with
      | EmptyString => None
      | String c s' =>
          if cls c then String c <$> match_repeat cls n' s' else None
      end
  end.

(** [pattern.search(s)] for the pattern [cls{n}]: the match at the leftmost
    position where there is one, [None] when there is none.  [result[0]] of
    the match object is the matched text. *)
Fixpoint search (cls : ascii → bool) (n : nat) (s : string) : option string :=
  match match_repeat cls n s with
  | Some m => Some m
  | None =>
      match s with
      | EmptyString => None
      | String _ s' => search cls n s'
      end
  end.

End Re.

(** ** Cleaned accession year (lines 41-56) *)

(** [result[0]]: subscripting [None] raises [TypeError]. *)
Definition match_group0 (result : option string) : Py.result string :=
  match result with
  | Some m => Ok m
  | None => Raise TypeError
  end.

(** One turn of the loop of lines 43-51: the text appended to
    [cleaned_year_list] for [entry]. *)
Definition cleaned_year_entry (entry : cell) : string :=
  let entry := str entry in
  let result := Re.search Re.digit 4 entry in
  try_except (match_group0 result) "".

(** Value of a text of decimal digits, most significant first. *)
Definition digit_value (c : ascii) : Z := Z.of_N (N_of_ascii c) - 48.

Fixpoint decimal_value_from (acc : Z) (s : string) : Z :=
  match s with
  | EmptyString => acc
  | String c s' => decimal_value_from (10 * acc + digit_value c) s'
  end.

Definition decimal_value (s : string) : Z := decimal_value_from 0 s.

Fixpoint all_digits (s : string) : bool :=
  match s with
  | EmptyString => true
  | String c s' => Re.digit c && all_digits s'
  end.

(** [pd.to_numeric(_, errors='coerce')] on one text of the column.  The
    column holds only what [cleaned_year_entry] appends: four digits, or the
    empty text, which is coerced to [NaN]. *)
Definition to_numeric (s : string) : option Z :=
  if truthy s && all_digits s then Some (decimal_value s) else None.

(** The entry of the column [Cleaned Accession Year] for one input cell. *)
Definition cleaned_accession_year (entry : cell) : option Z :=
  to_numeric (cleaned_year_entry entry).

(** ** The table (lines 20-37) *)

(** One row of [MetObjects.csv], with the six columns that are read. *)
Record record : Type := mk_record {
  Object_Number : cell;
  AccessionYear : cell;
  Department : cell;
  Culture : cell;
  Country : cell;
  Is_Highlight : cell
}.

Global Instance record_eq_dec : EqDecision record.
Proof. solve_decision. Defined.

(** [read_csv] turns an empty field into [np.nan]: no cell is the empty
    text. *)
Definition read_from_csv (r : record) : Prop :=
  Object_Number r ≠ Str "" ∧ AccessionYear r ≠ Str "" ∧
  Department r ≠ Str "" ∧ Culture r ≠ Str "" ∧ Country r ≠ Str "" ∧
  Is_Highlight r ≠ Str "".

(** [df[col] = df[col].astype(str)] for the two columns the script
    re-types. *)
Definition Department_astype_str (r : record) : record :=
  {| Object_Number := Object_Number r; AccessionYear := AccessionYear r;
     Department := Str (str (Department r)); Culture := Culture r;
     Country := Country r; Is_Highlight := Is_Highlight r |}.

Definition Is_Highlight_astype_str (r : record) : record :=
  {| Object_Number := Object_Number r; AccessionYear := AccessionYear r;
     Department := Department r; Culture := Culture r;
     Country := Country r; Is_Highlight := Str (str (Is_Highlight r)) |}.

(** Lines 36-37: the department as text, the rows of The Libraries
    dropped. *)
Definition drop_libraries (table : list record) : list record :=
  filter (λ r, Department r ≠ Str "The Libraries")
         (Department_astype_str <$> table).

(** ** Location (lines 61-71) *)

(** The function [apply] calls on each row.  Lines 62-63 assign to the row
    that [apply] hands over, a copy: only the value returned reaches [df]. *)
Definition clean_country_info_column (row : record) : cell :=
  let country := str (Country row) in
  let culture := str (Culture row) in
  if negb (truthy country) && negb (truthy culture) then NaN
  else if negb (truthy country) then Str culture
  else Str country.

(** A row of [df] once the two derived columns are added (line 71). *)
Record row : Type := mk_row {
  source : record;
  Cleaned_Accession_Year : option Z;
  Location : cell
}.

Global Instance row_eq_dec : EqDecision row.
Proof. solve_decision. Defined.

Definition add_derived_columns (r : record) : row :=
  {| source := r;
     Cleaned_Accession_Year := cleaned_accession_year (AccessionYear r);
     Location := clean_country_info_column r |}.

(** Line 189, on a row of [df]. *)
Definition row_Is_Highlight_astype_str (r : row) : row :=
  {| source := Is_Highlight_astype_str (source r);
     Cleaned_Accession_Year := Cleaned_Accession_Year r;
     Location := Location r |}.

(** ** Counting tables (lines 74-162) *)

(** [value_counts()] of a column without missing entries. *)
Definition value_counts `{Countable K} (col : list K) : gmap K nat :=
  foldr (λ k counts, <[k := S (default O (counts !! k))]> counts) ∅ col.

(** The text of a cell, none for [np.nan]: [value_counts] and [dropna] skip
    the missing entries. *)
Definition text (x : cell) : option string :=
  match x with
  | NaN => None
  | Str s => Some s
  end.

Definition department_name (r : row) : string := str (Department (source r)).

(** Line 74. *)
Definition dept_info (df : list row) : gmap string nat :=
  value_counts (department_name <$> df).

(** Line 90: [NaN <= 1923] is false. *)
Definition acquired_by_1923 (r : row) : Prop :=
  match Cleaned_Accession_Year r with
  | Some y => y ≤ 1923
  | None => False
  end.

Global Instance acquired_by_1923_dec r : Decision (acquired_by_1923 r).
Proof. unfold acquired_by_1923. destruct (Cleaned_Accession_Year r); apply _. Defined.

(** Lines 90-91. *)
Definition filtered_values_dept (df : list row) : gmap string nat :=
  value_counts (department_name <$> filter acquired_by_1923 df).

(** Lines 116 and 155: the rows of one department are dropped from a
    counting table. *)
Definition drop_lehman (numbers_df : gmap (string * Z) nat)
  : gmap (string * Z) nat :=
  filter (λ kv, kv.1.1 ≠ "Robert Lehman Collection") numbers_df.

(** Lines 106-123: objects per department and year; a grouped
    [value_counts] leaves out the rows whose year is missing. *)
Definition numbers_by_year (df : list row) : gmap (string * Z) nat :=
  drop_lehman
    (value_counts
       (omap (λ r, y ← Cleaned_Accession_Year r; Some (department_name r, y)) df)).

(** Line 145. *)
Definition decade (year : Z) : Z := (year `div` 10) * 10.

(** Lines 141-162. *)
Definition numbers_by_decade (df : list row) : gmap (string * Z) nat :=
  drop_lehman
    (value_counts
       (omap (λ r, y ← Cleaned_Accession_Year r;
                   Some (department_name r, decade y)) df)).

(** ** Highlights (lines 189-265) *)

(** The names the module binds before line 245 calls [check_against_iso]:
    the imports of lines 8-12, then every name assigned or defined above
    that line.  No built-in is called [pycountry]. *)
Definition module_globals : list string :=
  [ "Dash"; "dcc"; "html"; "get_asset_url"; "px"; "pd"; "np"; "re";
    "background_color"; "app"; "df"; "cleaned_year_list"; "entry";
    "pattern"; "result"; "clean_country_info_column"; "dept_info"; "fig1";
    "filtered_values"; "filtered_values_dept"; "fig2"; "acquisition_df";
    "acquisition_numbers"; "numbers_df"; "numbers_sorted"; "my_colors";
    "fig3"; "pretty_decade_labels"; "new_entry"; "my_colors_sorted"; "fig4";
    "highlight_values"; "check_against_iso"; "clean_up_location_problems";
    "unique_locations"; "problem_locations" ].

(** Evaluating a global name: [NameError] when it is not bound. *)
Definition load_global (name : string) : Py.result unit :=
  if bool_decide (name ∈ module_globals) then Ok () else Raise NameError.

Definition discards : gset string :=
  list_to_set ["or"; "and"; "(?)"; "probably"].

Definition directions : gset string :=
  list_to_set ["Northern"; "Western"; "Sothern"; "Southern"; "South";
               "Central"; "Lower"].

Definition islands : list string := ["Tahiti"; "Mangareva"].

Definition outliers : gmap string string :=
  list_to_map
    [ ("Democratic Republic of the Congo",
       "Congo (the Democratic Republic of the)");
      ("Tibet", "China");
      ("Iran (Persia)", "Iran");
      ("New Spain (Mexico)", "Mexico") ].

(** Lines 204-238.  The last test reads [outliers[entry]] when [entry] is
    one of its keys. *)
Definition clean_up_location_problems (entry : cell) : Py.result cell :=
  let entry := str entry in
  if contains "|" entry then
    let parts := split_on "|" entry in
    if bool_decide (size (list_to_set parts : gset string) = 1%nat) then
      entry ← getitem parts 0; Ok (Str entry)
    else Ok NaN
  else if bool_decide (list_to_set (split entry) ∩ discards ≠ ∅) then
    Ok NaN
  else if bool_decide (list_to_set (split entry) ∩ directions ≠ ∅) then
    cleaned_location ← getitem (split entry) 1; Ok (Str cleaned_location)
  else if bool_decide (entry = "England") then
    Ok (Str "United Kingdom")
  else if bool_decide ("present-day" ∈ split entry) then
    cleaned_location ← getitem (split entry) 1; Ok (Str cleaned_location)
  else if contains "formerly" entry then
    cleaned_location ← getitem (split entry) 0; Ok (Str cleaned_location)
  else if bool_decide (entry ∈ islands) then
    Ok (Str "French Polynesia")
  else
    match outliers !! entry with
    | Some cleaned_location => Ok (Str cleaned_location)
    | None => Ok NaN
    end.

(** [Series.unique()]: the distinct entries, in order of first
    appearance. *)
Fixpoint unique (col : list cell) : list cell :=
  match col with
  | [] => []
  | x :: col' => x :: filter (λ y, y ≠ x) (unique col')
  end.

(** Line 190: the comparison with the text [True]. *)
Definition is_highlight (r : row) : Prop :=
  Is_Highlight (source r) = Str "True".

Global Instance is_highlight_dec r : Decision (is_highlight r).
Proof. unfold is_highlight. apply _. Defined.

(** A row of [highlight_values] once [Improved Location] is added
    (line 259). *)
Record highlight_row : Type := mk_highlight_row {
  highlight : row;
  Improved_Location : cell
}.

Section Highlights.

(** [pycountry.countries.search_fuzzy]: the countries found, or
    [LookupError] when there is none. *)
Variable search_fuzzy : string → Py.result (list string).

(** Lines 196-201. *)
Definition check_against_iso (country : string) : bool :=
  try_except
    (_ ← load_global "pycountry";
     country ← search_fuzzy country;
     Ok true)
    false.

(** Lines 240-246. *)
Definition problem_locations (unique_locations : list cell) : list string :=
  filter (λ entry, check_against_iso entry = false)
         (str <$> unique_locations).

(** One turn of the loop of lines 250-256. *)
Definition improved_location (problem_locations : list string)
    (entry : cell) : Py.result cell :=
  let entry := str entry in
  if bool_decide (entry ∈ problem_locations) then
    clean_up_location_problems entry
  else Ok (Str entry).

(** Lines 248-256: the loop stops at the first entry that raises. *)
Fixpoint improved_locations (problem_locations : list string)
    (col : list cell) : Py.result (list cell) :=
  match col with
  | [] => Ok []
  | entry :: col' =>
      cleaned_location ← improved_location problem_locations entry;
      rest ← improved_locations problem_locations col';
      Ok (cleaned_location :: rest)
  end.

(** Line 262. *)
Definition dropna (highlight_values : list highlight_row)
  : list highlight_row :=
  filter (λ h, Improved_Location h ≠ NaN) highlight_values.

(** Line 265. *)
Definition highlight_numbers (highlight_values : list highlight_row)
  : gmap string nat :=
  value_counts (omap (λ h, text (Improved_Location h)) highlight_values).

(** The module's variables that hold data.  The three highlight variables
    are unbound until lines 190-265 run: they are empty until then. *)
Record module_state : Type := mk_state {
  st_df : list row;
  st_dept_info : gmap string nat;
  st_filtered_values_dept : gmap string nat;
  st_numbers_by_year : gmap (string * Z) nat;
  st_numbers_by_decade : gmap (string * Z) nat;
  st_problem_locations : list string;
  st_highlight_values : list highlight_row;
  st_highlight_numbers : gmap string nat
}.

(** The state with another table [df], the other variables kept. *)
Definition with_df (df : list row) (st : module_state) : module_state :=
  {| st_df := df;
     st_dept_info := st_dept_info st;
     st_filtered_values_dept := st_filtered_values_dept st;
     st_numbers_by_year := st_numbers_by_year st;
     st_numbers_by_decade := st_numbers_by_decade st;
     st_problem_locations := st_problem_locations st;
     st_highlight_values := st_highlight_values st;
     st_highlight_numbers := st_highlight_numbers st |}.

(** Lines 36-71: the table [df] with its derived columns. *)
Definition clean (table : list record) : list row :=
  add_derived_columns <$> drop_libraries table.

(** Lines 20-189: the module's state when the highlight pass starts. *)
Definition load_clean_aggregate (table : list record) : module_state :=
  let df := clean table in
  {| st_df := row_Is_Highlight_astype_str <$> df;
     st_dept_info := dept_info df;
     st_filtered_values_dept := filtered_values_dept df;
     st_numbers_by_year := numbers_by_year df;
     st_numbers_by_decade := numbers_by_decade df;
     st_problem_locations := [];
     st_highlight_values := [];
     st_highlight_numbers := ∅ |}.

(** Lines 190-265: the normalisation of the highlights' locations.  It
    reads [df] and binds the three highlight variables. *)
Definition highlight_pass (st : module_state) : Py.result module_state :=
  let highlight_values := filter is_highlight (st_df st) in
  let unique_locations := unique (Location <$> highlight_values) in
  let problem_locations := problem_locations unique_locations in
  improved_locations ←
    improved_locations problem_locations (Location <$> highlight_values);
  let highlight_values :=
    zip_with mk_highlight_row highlight_values improved_locations in
  let highlight_values := dropna highlight_values in
  Ok {| st_df := st_df st;
        st_dept_info := st_dept_info st;
        st_filtered_values_dept := st_filtered_values_dept st;
        st_numbers_by_year := st_numbers_by_year st;
        st_numbers_by_decade := st_numbers_by_decade st;
        st_problem_locations := problem_locations;
        st_highlight_values := highlight_values;
        st_highlight_numbers := highlight_numbers highlight_values |}.

(** The whole pass, from the rows read to the tables charted. *)
Definition run (table : list record) : Py.result module_state :=
  highlight_pass (load_clean_aggregate table).

(** *** The pass, row by row

    What lines 240-262 do to one row of [highlight_values], with the test
    [entry in problem_locations] replaced by the test that decides it. *)
Definition improved_location_of (entry : cell) : Py.result cell :=
  if check_against_iso (str entry) then Ok (Str (str entry))
  else clean_up_location_problems (str entry).

(** The rows of [highlight_values] that line 262 keeps. *)
Fixpoint kept_rows (df : list row) : Py.result (list highlight_row) :=
  match df with
  | [] => Ok []
  | r :: df' =>
      if decide (is_highlight r) then
        cleaned_location ← improved_location_of (Location r);
        rest ← kept_rows df';
        Ok (if isna cleaned_location then rest
            else mk_highlight_row r cleaned_location :: rest)
      else kept_rows df'
  end.

End Highlights.

(** ** Notions used in the statements *)

(** The fixed synonym table, one entry per recognised name. *)
Definition synonym_table : list (string * string) :=
  [ ("England", "United Kingdom");
    ("Tahiti", "French Polynesia");
    ("Mangareva", "French Polynesia");
    ("Democratic Republic of the Congo",
     "Congo (the Democratic Republic of the)");
    ("Tibet", "China");
    ("Iran (Persia)", "Iran");
    ("New Spain (Mexico)", "Mexico") ].

(** [sep.join(parts)]. *)
Fixpoint join (sep : string) (parts : list string) : string :=
  match parts with
  | [] => ""
  | [part] => part
  | part :: parts' => part +:+ sep +:+ join sep parts'
  end.

(** The text left when the directional word in front is stripped. *)
Definition without_directional_prefix (entry : string) : string :=
  match split entry with
  | w :: rest => if bool_decide (w ∈ directions) then join " " rest else entry
  | [] => entry
  end.

(** [m] is four consecutive digits. *)
Definition four_digits (m : string) : Prop :=
  String.length m = 4%nat ∧ all_digits m = true.

(** [m] occurs in [s] after the prefix [p]. *)
Definition occurs_after (p m s : string) : Prop :=
  ∃ q, s = p +:+ m +:+ q.

(** The tests of lines 214, 221 and 223 on a text. *)
Definition no_separator (entry : string) : Prop := contains "|" entry = false.
Definition has_discard_word (entry : string) : Prop :=
  ∃ w, w ∈ split entry ∧ w ∈ discards.
Definition has_directional_word (entry : string) : Prop :=
  ∃ w, w ∈ split entry ∧ w ∈ directions.

(** The row [r] of [df] adds nothing to what the pass binds: no kept row is
    [r], and without [r] in [df] the pass keeps the same rows and counts the
    same numbers. *)
Definition contributes_nothing
    (search_fuzzy : string → Py.result (list string))
    (st st' : module_state) (r : row) : Prop :=
  (∀ h, h ∈ st_highlight_values st' → highlight h ≠ r) ∧
  ∀ df1 df2, st_df st = df1 ++ r :: df2 →
    ∃ st'', highlight_pass search_fuzzy (with_df (df1 ++ df2) st) = Ok st'' ∧
            st_highlight_values st'' = st_highlight_values st' ∧
            st_highlight_numbers st'' = st_highlight_numbers st'.

(** The number of entries of a table that satisfy [P]. *)
Definition count_rows {A : Type} (P : A → Prop) `{!∀ x, Decision (P x)}
    (table : list A) : nat :=
  length (filter P table).

Global Instance exn_eq_dec : EqDecision Py.exn.
Proof. solve_decision. Defined.

Global Instance result_eq_dec `{EqDecision A} : EqDecision (Py.result A).
Proof. solve_decision. Defined.

(** ** Sample rows *)

(** A row of the file with the given country and highlight flag. *)
Definition sample_record (number : string) (country flag : cell) : record :=
  mk_record number "1923" "Asian Art" NaN country flag.

(** A lookup that finds every name. *)
Definition finds_all (country : string) : Py.result (list string) :=
  Ok [country].

(** Three rows: a highlight from England, an object from Italy that is no
    highlight, a highlight of uncertain origin. *)
Definition sample_table : list record :=
  [ sample_record "29.100.1" "England" "True";
    sample_record "29.100.2" "Italy" "False";
    sample_record "29.100.3" "France or Italy" "True" ].

(** The row of [df] for a sample record. *)
Definition sample_row (number : string) (country flag : cell) : row :=
  row_Is_Highlight_astype_str
    (add_derived_columns
       (Department_astype_str (sample_record number country flag))).

(** * Properties *)

(** ** Texts *)

Section Texts.

Implicit Types (s p q m needle cur : string) (c : ascii).

Lemma app_cons c s q : String c s +:+ q = String c (s +:+ q).
Proof. reflexivity. Qed.

Lemma app_empty_l s : "" +:+ s = s.
Proof. reflexivity. Qed.

Lemma app_empty_r s : s +:+ "" = s.
Proof. induction s as [|c s IH]; [done|]. by rewrite app_cons, IH. Qed.

Lemma app_assoc' p q s : (p +:+ q) +:+ s = p +:+ q +:+ s.
Proof. induction p as [|c p IH]; [done|]. by rewrite !app_cons, IH. Qed.

Lemma length_app p q :
  String.length (p +:+ q) = (String.length p + String.length q)%nat.
Proof. induction p as [|c p IH]; [done|]. rewrite app_cons. simpl. by rewrite IH. Qed.

(** Two splittings of one text at the same position are the same. *)
Lemma app_inj_length p p' s s' :
  p +:+ s = p' +:+ s' → String.length p = String.length p' →
  p = p' ∧ s = s'.
Proof.
  revert p'. induction p as [|c p IH]; intros [|c' p'] Heq Hlen;
    try discriminate Hlen.
  - done.
  - rewrite !app_cons in Heq. injection Heq as -> Heq.
    injection Hlen as Hlen. by destruct (IH p' Heq Hlen) as [-> ->].
Qed.

Lemma prefix_spec needle s :
  String.prefix needle s = true ↔ ∃ q, s = needle +:+ q.
Proof.
  revert s. induction needle as [|c needle IH]; intros s.
  - split; [by exists s|by destruct s].
  - destruct s as [|c' s]; simpl.
    + split; [done|]. by intros [q ?].
    + destruct (ascii_dec c c') as [->|Hne].
      * rewrite IH. split; intros [q Hq]; exists q.
        -- by rewrite app_cons, Hq.
        -- rewrite app_cons in Hq. by simplify_eq.
      * split; [done|]. intros [q Hq]. rewrite app_cons in Hq. by simplify_eq.
Qed.

(** [needle in s] holds exactly when [needle] occurs somewhere in [s]. *)
Lemma contains_spec needle s :
  contains needle s = true ↔ ∃ p q, s = p +:+ needle +:+ q.
Proof.
  induction s as [|c s IH].
  - change (contains needle "") with (String.prefix needle "" || false).
    rewrite orb_false_r, prefix_spec. split.
    + intros [q Hq]. by exists "", q.
    + intros ([|c p] & q & Hq); [by exists q|]. by rewrite app_cons in Hq.
  - change (contains needle (String c s))
      with (String.prefix needle (String c s) || contains needle s).
    rewrite orb_true_iff, prefix_spec, IH. split.
    + intros [[q Hq]|(p & q & Hq)].
      * by exists "", q.
      * exists (String c p), q. by rewrite app_cons, Hq.
    + intros ([|c' p] & q & Hq).
      * left. by exists q.
      * right. rewrite app_cons in Hq. simplify_eq. by exists p, q.
Qed.

End Texts.

(** ** Evaluations *)

Ltac evaluate := vm_compute; reflexivity.

Example split_words :
  split "  Northern   France " = ["Northern"; "France"].
Proof. evaluate. Qed.

Example split_empty : split "   " = [].
Proof. evaluate. Qed.

Example split_on_keeps_empty_parts : split_on "|" "a||b|" = ["a"; ""; "b"; ""].
Proof. evaluate. Qed.

Example split_on_no_separator : split_on "|" "" = [""].
Proof. evaluate. Qed.

Example search_leftmost : Re.search Re.digit 4 "x12y34567" = Some "3456".
Proof. evaluate. Qed.

Example year_of_range : cleaned_accession_year "1917, 1923-24" = Some 1917.
Proof. evaluate. Qed.

Example year_of_missing : cleaned_accession_year NaN = None.
Proof. evaluate. Qed.

Example year_of_three_digits : cleaned_accession_year "ca. 987" = None.
Proof. evaluate. Qed.

Example clean_formerly :
  clean_up_location_problems "Myanmar (formerly Burma)" = Ok (Str "Myanmar").
Proof. evaluate. Qed.

Example clean_present_day :
  clean_up_location_problems "present-day Uzbekistan"
  = Ok (Str "Uzbekistan").
Proof. evaluate. Qed.

Example clean_unknown : clean_up_location_problems "France" = Ok NaN.
Proof. evaluate. Qed.

(** ** The accession year *)

Section Year.

Implicit Types (s p q m : string) (c : ascii).

Lemma match_digits_spec n s m :
  Re.match_repeat Re.digit n s = Some m ↔
  String.length m = n ∧ all_digits m = true ∧ ∃ q, s = m +:+ q.
Proof.
  revert s m. induction n as [|n IH]; intros s m; simpl.
  - split.
    + intros [= <-]. split_and!; [done..|by exists s].
    + intros (Hlen & _ & _). by destruct m.
  - destruct s as [|c s].
    + split; [done|]. intros (Hlen & _ & q & Hq). by destruct m.
    + destruct (Re.digit c) eqn:Hc.
      * split.
        -- intros Hm. apply fmap_Some in Hm as (m' & Hm' & ->).
           apply IH in Hm' as (Hlen & Hdig & q & ->).
           simpl. rewrite Hc, Hlen. split_and!; [done..|by exists q].
        -- intros (Hlen & Hdig & q & Hq). destruct m as [|c' m]; [done|].
           rewrite app_cons in Hq. simplify_eq/=.
           apply andb_true_iff in Hdig as [_ Hdig].
           apply fmap_Some. exists m. split; [|done].
           apply IH. split_and!; [done..|by exists q].
      * split; [done|]. intros (Hlen & Hdig & q & Hq).
        destruct m as [|c' m]; [done|].
        rewrite app_cons in Hq. simplify_eq/=.
        by rewrite Hc in Hdig.
Qed.

Lemma match_four_digits s m :
  Re.match_repeat Re.digit 4 s = Some m ↔ four_digits m ∧ occurs_after "" m s.
Proof.
  rewrite match_digits_spec. unfold four_digits, occurs_after.
  split; [intros (? & ? & ?)|intros [[? ?] ?]]; done.
Qed.

Lemma search_unfold s :
  Re.search Re.digit 4 s =
  match Re.match_repeat Re.digit 4 s with
  | Some m => Some m
  | None => match s with "" => None | String _ s' => Re.search Re.digit 4 s' end
  end.
Proof. by destruct s. Qed.

(** No match: four digits in a row occur nowhere. *)
Lemma search_None s p m :
  Re.search Re.digit 4 s = None → four_digits m → ¬ occurs_after p m s.
Proof.
  revert p. induction s as [|c s IH]; intros p; rewrite search_unfold;
    destruct (Re.match_repeat _ _ _) eqn:Hm; try done; intros Hs Hfour [q Hq].
  - destruct p; [|by rewrite app_cons in Hq].
    assert (Re.match_repeat Re.digit 4 "" = Some m) as Hm'; [|congruence].
    apply match_four_digits. split; [done|by exists q].
  - destruct p as [|c' p].
    + assert (Re.match_repeat Re.digit 4 (String c s) = Some m) as Hm';
        [|congruence].
      apply match_four_digits. split; [done|by exists q].
    + rewrite app_cons in Hq. simplify_eq.
      apply (IH p); [done..|by exists q].
Qed.

(** A match: four digits, at the least position where four digits occur. *)
Lemma search_Some s m :
  Re.search Re.digit 4 s = Some m →
  four_digits m ∧
  ∃ p, occurs_after p m s ∧
       ∀ p' m', four_digits m' → occurs_after p' m' s →
                (String.length p ≤ String.length p')%nat.
Proof.
  induction s as [|c s IH]; rewrite search_unfold;
    destruct (Re.match_repeat _ _ _) eqn:Hm; try done.
  - intros [= ->]. apply match_four_digits in Hm as [? ?].
    split; [done|]. exists "". split; [done|]. simpl. lia.
  - intros Hs. destruct (IH Hs) as (Hfour & p & [q ->] & Hmin).
    split; [done|]. exists (String c p). split; [by exists q|].
    intros [|c' p'] m' Hfour' [q' Hq'].
    + assert (Re.match_repeat Re.digit 4 (String c (p +:+ m +:+ q)) = Some m')
        as Hm'; [|congruence].
      apply match_four_digits. split; [done|by exists q'].
    + rewrite app_cons in Hq'. injection Hq' as _ Hq'. simpl.
      pose proof (Hmin p' m' Hfour' (ex_intro _ q' Hq')) as Hle. lia.
Qed.

(** The value of four digits, written out. *)
Lemma decimal_value_four (a b c d : ascii) :
  decimal_value (String a (String b (String c (String d "")))) =
  1000 * digit_value a + 100 * digit_value b + 10 * digit_value c
  + digit_value d.
Proof. unfold decimal_value. simpl. lia. Qed.

Lemma to_numeric_four_digits m :
  four_digits m → to_numeric m = Some (decimal_value m).
Proof.
  intros [Hlen Hdig]. unfold to_numeric. rewrite Hdig.
  by destruct m.
Qed.

Lemma cleaned_accession_year_search (entry : string) :
  cleaned_accession_year entry =
  decimal_value <$> Re.search Re.digit 4 entry.
Proof.
  unfold cleaned_accession_year, cleaned_year_entry. simpl.
  destruct (Re.search Re.digit 4 entry) as [m|] eqn:Hs; simpl; [|done].
  apply to_numeric_four_digits. by apply search_Some in Hs as [? _].
Qed.

End Year.

(** C3. For every accession-year text, the cleaned accession year is the
    numeric value of the first four consecutive digits that occur in the
    text, and it is missing exactly when no four consecutive digits occur
    in it. *)
Theorem cleaned_accession_year_first_four_digits (entry : string) :
  (∀ year : Z,
     cleaned_accession_year entry = Some year ↔
     ∃ p m, four_digits m ∧ occurs_after p m entry ∧
            (∀ p' m', four_digits m' → occurs_after p' m' entry →
                      (String.length p ≤ String.length p')%nat) ∧
            year = decimal_value m) ∧
  (cleaned_accession_year entry = None ↔
   ¬ ∃ p m, four_digits m ∧ occurs_after p m entry).
Proof.
  rewrite cleaned_accession_year_search. split.
  - intros year. split.
    + intros Hy. apply fmap_Some in Hy as (m & Hs & ->).
      apply search_Some in Hs as (Hfour & p & Hocc & Hmin).
      by exists p, m.
    + intros (p & m & Hfour & Hocc & Hmin & ->).
      destruct (Re.search Re.digit 4 entry) as [m0|] eqn:Hs.
      * apply search_Some in Hs as (Hfour0 & p0 & Hocc0 & Hmin0).
        pose proof (Hmin p0 m0 Hfour0 Hocc0) as Hle.
        pose proof (Hmin0 p m Hfour Hocc) as Hge.
        destruct Hocc as [q Hq], Hocc0 as [q0 Hq0].
        rewrite Hq0 in Hq.
        apply app_inj_length in Hq as [_ Hq]; [|lia].
        rewrite <- (app_empty_l (m0 +:+ q0)), <- (app_empty_l (m +:+ q)) in Hq.
        rewrite <- !app_assoc' in Hq.
        apply app_inj_length in Hq as [Hq _].
        -- simpl in Hq. by rewrite !app_empty_l in Hq; simplify_eq.
        -- rewrite !length_app. destruct Hfour as [-> _], Hfour0 as [-> _]. done.
      * by destruct (search_None entry p m Hs Hfour Hocc).
  - split.
    + intros Hn. apply fmap_None in Hn. intros (p & m & Hfour & Hocc).
      by apply (search_None entry p m Hn Hfour).
    + intros Hno. destruct (Re.search Re.digit 4 entry) as [m|] eqn:Hs; [|done].
      destruct Hno. apply search_Some in Hs as (Hfour & p & Hocc & _).
      by exists p, m.
Qed.

(** ** Splitting *)

Section Splitting.

Implicit Types (s cur part : string) (c sep : ascii) (X : gset string).

Lemma split_on_scan_cons sep cur s :
  ∃ part parts, split_on_scan sep cur s = part :: parts.
Proof.
  revert cur. induction s as [|c s IH]; intros cur; simpl; [by eauto|].
  destruct (Ascii.eqb c sep); eauto.
Qed.

(** Joining the parts with the separator gives the text back. *)
Lemma join_split_on_scan sep cur s :
  join (String sep "") (split_on_scan sep cur s) = cur +:+ s.
Proof.
  revert cur. induction s as [|c s IH]; intros cur; simpl.
  - by rewrite app_empty_r.
  - destruct (Ascii.eqb_spec c sep) as [->|Hne].
    + destruct (split_on_scan_cons sep "" s) as (part & parts & Hs).
      specialize (IH ""). rewrite Hs in IH |- *.
      change (join (String sep "") (cur :: part :: parts))
        with (cur +:+ String sep "" +:+ join (String sep "") (part :: parts)).
      by rewrite IH.
    + by rewrite IH, app_assoc'.
Qed.

Lemma join_split_on sep s : join (String sep "") (split_on sep s) = s.
Proof. apply join_split_on_scan. Qed.

(** The text holds the separator exactly when there are two parts or
    more. *)
Lemma split_on_scan_contains sep cur s :
  contains (String sep "") s = true →
  ∃ part part' parts, split_on_scan sep cur s = part :: part' :: parts.
Proof.
  revert cur. induction s as [|c s IH]; intros cur Hin; [done|].
  simpl. destruct (Ascii.eqb_spec c sep) as [->|Hne].
  - destruct (split_on_scan_cons sep "" s) as (part & parts & ->). eauto.
  - apply IH. apply contains_spec in Hin as ([|c' p] & q & Hq).
    + rewrite app_empty_l, app_cons in Hq. by simplify_eq.
    + rewrite app_cons in Hq. simplify_eq. apply contains_spec. eauto.
Qed.

(** A word of [split] was closed non-empty. *)
Lemma split_scan_truthy cur s :
  Forall (λ w, truthy w = true) (split_scan cur s).
Proof.
  revert cur. induction s as [|c s IH]; intros cur; simpl.
  - unfold flush. destruct (truthy cur) eqn:?; by repeat constructor.
  - destruct (isspace c); [|done]. apply Forall_app. split; [|done].
    unfold flush. destruct (truthy cur) eqn:?; by repeat constructor.
Qed.

Lemma truthy_app_r cur c : truthy (cur +:+ String c "") = true.
Proof. by destruct cur. Qed.

Lemma split_scan_truthy_cons cur s :
  truthy cur = true → ∃ w ws, split_scan cur s = w :: ws.
Proof.
  revert cur. induction s as [|c s IH]; intros cur Hcur; simpl.
  - unfold flush. rewrite Hcur. eauto.
  - destruct (isspace c).
    + unfold flush. rewrite Hcur. simpl. eauto.
    + apply IH, truthy_app_r.
Qed.

(** A text with a character that is not white space has a word. *)
Lemma split_scan_cons cur p c q :
  isspace c = false → ∃ w ws, split_scan cur (p +:+ String c q) = w :: ws.
Proof.
  intros Hc. revert cur. induction p as [|c' p IH]; intros cur.
  - rewrite app_empty_l. simpl. rewrite Hc.
    apply split_scan_truthy_cons, truthy_app_r.
  - rewrite app_cons. simpl. destruct (isspace c').
    + destruct (IH "") as (w & ws & ->).
      unfold flush. destruct (truthy cur); simpl; eauto.
    + apply IH.
Qed.

Lemma split_contains_formerly s :
  contains "formerly" s = true → ∃ w ws, split s = w :: ws.
Proof.
  intros (p & q & ->)%contains_spec.
  change ("formerly" +:+ q) with (String "f" ("ormerly" +:+ q)).
  by apply split_scan_cons.
Qed.

(** The truth value of [set(words).intersection(X)]. *)
Lemma word_in_set (ws : list string) X :
  list_to_set ws ∩ X ≠ ∅ ↔ ∃ w, w ∈ ws ∧ w ∈ X.
Proof.
  split.
  - intros (w & Hw)%set_choose_L. exists w. set_solver.
  - intros (w & Hw & HX). set_solver.
Qed.

(** [len(list(set(parts))) == 1]: the parts are all the same. *)
Lemma size_one_shared (part : string) (parts : list string) :
  size (list_to_set (part :: parts) : gset string) = 1%nat ↔
  ∀ part', part' ∈ part :: parts → part' = part.
Proof.
  split.
  - intros (x & Hx)%size_1_elem_of part' Hin.
    assert (∀ y, y ∈ part :: parts → y = x) as Hall.
    { intros y Hy. apply (elem_of_singleton (C:=gset string)).
      apply Hx. by apply elem_of_list_to_set. }
    rewrite (Hall part' Hin). symmetry. apply Hall. by left.
  - intros Hall.
    assert ((list_to_set (part :: parts) : gset string) = {[part]}) as ->.
    { apply set_eq. intros x. rewrite elem_of_list_to_set, elem_of_singleton.
      split; [apply Hall|]. intros ->. by left. }
    apply size_singleton.
Qed.

End Splitting.

(** ** The heuristic cleaner *)

Section Cleaner.

Implicit Types (entry w part : string).

(** The separator clause (lines 214-220). *)
Lemma clean_separator entry part parts :
  contains "|" entry = true → split_on "|" entry = part :: parts →
  clean_up_location_problems entry =
  if bool_decide (size (list_to_set (part :: parts) : gset string) = 1%nat)
  then Ok (Str part) else Ok NaN.
Proof.
  intros Hin Hparts. unfold clean_up_location_problems, str.
  rewrite Hin, Hparts. by case_bool_decide.
Qed.

(** The discard clause (lines 221-222). *)
Lemma clean_discard entry :
  no_separator entry → has_discard_word entry →
  clean_up_location_problems entry = Ok NaN.
Proof.
  intros Hbar Hdis%word_in_set. unfold clean_up_location_problems, str.
  rewrite Hbar. by rewrite bool_decide_eq_true_2.
Qed.

(** The directional clause (lines 223-224). *)
Lemma clean_direction entry :
  no_separator entry → ¬ has_discard_word entry →
  has_directional_word entry →
  clean_up_location_problems entry =
  (cleaned_location ← getitem (split entry) 1; Ok (Str cleaned_location)).
Proof.
  intros Hbar Hdis Hdir%word_in_set. unfold clean_up_location_problems, str.
  rewrite Hbar, bool_decide_eq_false_2, bool_decide_eq_true_2; [done..|].
  by rewrite word_in_set.
Qed.

End Cleaner.

Section Raising.

Implicit Types (entry w : string).

Lemma getitem_1_Raise {A} (xs : list A) (e : exn) (k : A → Py.result cell) :
  (∀ x, k x ≠ Raise e) →
  (x ← getitem xs 1; k x) = Raise e ↔
  e = IndexError ∧ (length xs ≤ 1)%nat.
Proof.
  intros Hk. destruct xs as [|x0 [|x1 xs]]; simpl.
  - split; [intros [= <-]; split; [done|lia]|by intros [-> _]].
  - split; [intros [= <-]; split; [done|lia]|by intros [-> _]].
  - split; [by intros ?%Hk|intros [_ ?]; lia].
Qed.

(** The cleaner raises only [IndexError], and exactly on a one-word text
    whose word is directional or is [present-day] (lines 224 and 228 read
    the second word). *)
Lemma clean_up_location_problems_Raise entry e :
  clean_up_location_problems entry = Raise e ↔
  e = IndexError ∧ no_separator entry ∧ ¬ has_discard_word entry ∧
  (has_directional_word entry ∨ "present-day" ∈ split entry) ∧
  ∃ w, split entry = [w].
Proof.
  unfold clean_up_location_problems, str, no_separator.
  destruct (contains "|" entry) eqn:Hbar.
  { unfold split_on.
    destruct (split_on_scan_cons "|" "" entry) as (part & parts & ->).
    case_bool_decide; simpl; (split; [done|by intros (_ & ? & _)]). }
  case_bool_decide as Hdis.
  { apply word_in_set in Hdis. split; [done|]. by intros (_ & _ & ? & _). }
  assert (¬ has_discard_word entry) as Hdis'.
  { unfold has_discard_word. rewrite <- word_in_set. by intros ?. }
  case_bool_decide as Hdir.
  { apply word_in_set in Hdir. rewrite getitem_1_Raise by done. split.
    - intros [-> Hlen]. split_and!; [done..|by left|].
      destruct Hdir as (w & Hw & _).
      destruct (split entry) as [|w0 [|w1 ws]]; simpl in Hlen;
        [by apply elem_of_nil in Hw|by eauto|lia].
    - intros (-> & _ & _ & _ & w & ->). split; [done|simpl; lia]. }
  assert (¬ has_directional_word entry) as Hdir'.
  { unfold has_directional_word. rewrite <- word_in_set. by intros ?. }
  case_bool_decide as HEngland.
  { subst entry. split; [done|].
    intros (_ & _ & _ & [?|Hpd] & _); [done|].
    vm_compute in Hpd. by apply list_elem_of_singleton in Hpd. }
  case_bool_decide as Hpd.
  { rewrite getitem_1_Raise by done. split.
    - intros [-> Hlen]. split_and!; [done..|by right|].
      destruct (split entry) as [|w0 [|w1 ws]]; simpl in Hlen;
        [by apply elem_of_nil in Hpd|by eauto|lia].
    - intros (-> & _ & _ & _ & w & ->). split; [done|simpl; lia]. }
  assert (∀ r : Py.result cell,
            (∀ e', r ≠ Raise e') →
            r = Raise e ↔
            e = IndexError ∧ false = false ∧ ¬ has_discard_word entry ∧
            (has_directional_word entry ∨ "present-day" ∈ split entry) ∧
            ∃ w, split entry = [w]) as Hreturns.
  { intros r Hr. split; [by intros ?%Hr|]. by intros (_ & _ & _ & [?|?] & _). }
  destruct (contains "formerly" entry) eqn:Hformerly.
  { apply split_contains_formerly in Hformerly as (w & ws & Hs).
    assert (getitem (split entry) 0 = Ok w) as -> by (by rewrite Hs).
    by apply Hreturns. }
  case_bool_decide; [by apply Hreturns|].
  destruct (outliers !! entry); by apply Hreturns.
Qed.

End Raising.

(** C5. For every text that holds the separator, the cleaner returns the
    shared value when all the parts between separators are equal, and the
    missing value when two parts differ. *)
Theorem separator_shared_value_or_absent (entry : string) :
  (∃ p q, entry = p +:+ "|" +:+ q) →
  (∀ value : string,
     (∀ part, part ∈ split_on "|" entry → part = value) →
     clean_up_location_problems entry = Ok (Str value)) ∧
  ((∃ part part',
      part ∈ split_on "|" entry ∧ part' ∈ split_on "|" entry ∧
      part ≠ part') →
   clean_up_location_problems entry = Ok NaN).
Proof.
  intros Hin%contains_spec.
  destruct (split_on_scan_cons "|" "" entry) as (part0 & parts & Hparts).
  fold (split_on "|" entry) in Hparts.
  rewrite (clean_separator entry part0 parts Hin Hparts), Hparts. split.
  - intros value Hall. rewrite bool_decide_eq_true_2.
    + f_equal. f_equal. apply Hall. by left.
    + apply size_one_shared. intros part' Hin'.
      by rewrite (Hall part' Hin'), (Hall part0) by by left.
  - intros (part & part' & Hpart & Hpart' & Hne).
    rewrite bool_decide_eq_false_2; [done|].
    intros Hsize. pose proof (proj1 (size_one_shared part0 parts) Hsize) as Hall.
    destruct Hne.
    by rewrite (Hall part Hpart), (Hall part' Hpart').
Qed.

Lemma separator_shared_value_or_absent_witness :
  clean_up_location_problems "France|France" = Ok (Str "France") ∧
  clean_up_location_problems "France|Italy" = Ok NaN.
Proof.
  split.
  - apply (separator_shared_value_or_absent "France|France").
    + by exists "France", "France".
    + intros part Hin. vm_compute in Hin.
      repeat (apply elem_of_cons in Hin as [->|Hin]; [reflexivity|]).
      by apply elem_of_nil in Hin.
  - apply (separator_shared_value_or_absent "France|Italy").
    + by exists "France", "Italy".
    + exists "France", "Italy". vm_compute.
      split_and!; [by left|by right; left|discriminate].
Defined.

(** C7. For every key of the fixed synonym table, the cleaner returns the
    replacement the table gives for it; no key meets an earlier clause. *)
Theorem synonym_replaced (entry replacement : string) :
  (entry, replacement) ∈ synonym_table →
  clean_up_location_problems entry = Ok (Str replacement).
Proof.
  unfold synonym_table. intros Hin.
  repeat (apply elem_of_cons in Hin as [[= -> ->]|Hin];
          [vm_compute; reflexivity|]).
  by apply elem_of_nil in Hin.
Qed.

Lemma synonym_replaced_witness :
  ("Tibet", "China") ∈ synonym_table ∧
  clean_up_location_problems "Tibet" = Ok (Str "China").
Proof.
  assert (("Tibet", "China") ∈ synonym_table) as Hin.
  { unfold synonym_table. do 4 right. left. }
  split; [exact Hin|]. apply (synonym_replaced "Tibet" "China" Hin).
Defined.

(** C4, as amended. For every text without separator and without discard
    word that has a directional word among at least two words, the cleaner
    returns the second word; when the text is a directional word followed
    by one more word, that is the text left once the prefix is stripped. *)
Theorem direction_second_word (entry w0 w1 : string) (rest : list string) :
  no_separator entry → ¬ has_discard_word entry →
  has_directional_word entry →
  split entry = w0 :: w1 :: rest →
  clean_up_location_problems entry = Ok (Str w1) ∧
  (w0 ∈ directions → rest = [] → without_directional_prefix entry = w1).
Proof.
  intros Hbar Hdis Hdir Hwords. split.
  - by rewrite clean_direction, Hwords.
  - intros Hw0 ->. unfold without_directional_prefix.
    by rewrite Hwords, bool_decide_eq_true_2.
Qed.

Lemma no_word_in (ws : list string) (X : gset string) :
  list_to_set ws ∩ X = ∅ → ¬ ∃ w, w ∈ ws ∧ w ∈ X.
Proof. intros Hempty Hw%word_in_set. done. Qed.

Lemma direction_second_word_witness :
  clean_up_location_problems "Northern France" = Ok (Str "France") ∧
  without_directional_prefix "Northern France" = "France".
Proof.
  assert (no_separator "Northern France") as Hbar by reflexivity.
  assert (¬ has_discard_word "Northern France") as Hdis.
  { apply no_word_in. vm_compute. reflexivity. }
  assert (has_directional_word "Northern France") as Hdir.
  { exists "Northern". split; [by left|]. vm_compute. reflexivity. }
  assert ("Northern" ∈ directions) as Hw0 by (vm_compute; reflexivity).
  destruct (direction_second_word "Northern France" "Northern" "France" []
              Hbar Hdis Hdir eq_refl) as [Hclean Hstrip].
  split; [exact Hclean|exact (Hstrip Hw0 eq_refl)].
Defined.

(** C4, as stated, fails: the directional word taken off [Southern United
    States] leaves [United States], and the cleaner returns [United]. *)
Lemma direction_prefix_counterexample :
  no_separator "Southern United States" ∧
  ¬ has_discard_word "Southern United States" ∧
  has_directional_word "Southern United States" ∧
  without_directional_prefix "Southern United States" = "United States" ∧
  clean_up_location_problems "Southern United States" = Ok (Str "United") ∧
  clean_up_location_problems "Southern United States"
    ≠ Ok (Str (without_directional_prefix "Southern United States")).
Proof.
  split_and!.
  - reflexivity.
  - apply no_word_in. vm_compute. reflexivity.
  - exists "Southern". split; [by left|]. vm_compute. reflexivity.
  - vm_compute. reflexivity.
  - vm_compute. reflexivity.
  - vm_compute. discriminate.
Qed.

(** C10 fails on the code: on a bare directional word, and on the bare
    word [present-day], the cleaner raises [IndexError]. *)
Theorem cleaner_raises_on_one_word :
  clean_up_location_problems "Northern" = Raise IndexError ∧
  clean_up_location_problems "present-day" = Raise IndexError.
Proof. split; vm_compute; reflexivity. Qed.

(** C1 fails on the code: a row whose country is missing gets the text
    [nan] for location, whatever its culture. *)
Theorem location_of_missing_country (number year dept culture flag : cell) :
  clean_country_info_column
    (mk_record number year dept culture NaN flag) = Str "nan".
Proof. unfold clean_country_info_column. simpl. by destruct (str culture). Qed.

(** ** Location of a row *)

(** X16. Every cell read from the file is a non-empty text or missing: the
    location is then the text of the country cell, [nan] when missing,
    whatever the culture. *)
Lemma location_of_csv_row (r : record) :
  read_from_csv r → clean_country_info_column r = Str (str (Country r)).
Proof.
  intros (_ & _ & _ & _ & Hcountry & _). unfold clean_country_info_column.
  destruct (Country r) as [|[|c s]]; simpl; [|done|done].
  by destruct (str (Culture r)).
Qed.

(** The precedence holds for the empty text, which no cell read from the
    file is. *)
Lemma location_precedence_on_texts (r : record) (country culture : string) :
  Country r = Str country → Culture r = Str culture →
  clean_country_info_column r =
  if truthy country then Str country
  else if truthy culture then Str culture else NaN.
Proof.
  intros Hcountry Hculture. unfold clean_country_info_column.
  rewrite Hcountry, Hculture. simpl.
  by destruct (truthy country), (truthy culture).
Qed.

(** ** The highlight pass *)

Section Pass.

Variable search_fuzzy : string → Py.result (list string).

Implicit Types (df : list row) (r : row) (col : list cell) (entry : cell)
  (st : module_state) (h : highlight_row).

(** [pycountry] is not bound in the module: the lookup is never reached and
    every country fails the check. *)
Lemma check_against_iso_false (country : string) :
  check_against_iso search_fuzzy country = false.
Proof. reflexivity. Qed.

Lemma unique_elem_of col (x : cell) : x ∈ unique col ↔ x ∈ col.
Proof.
  induction col as [|y col IH]; simpl; [done|].
  rewrite !elem_of_cons, list_elem_of_filter, IH. split.
  - intros [?|[_ ?]]; auto.
  - intros [?|?]; [auto|]. destruct (decide (x = y)); auto.
Qed.

Lemma problem_locations_elem_of col (entry : string) :
  entry ∈ problem_locations search_fuzzy (unique col) ↔
  entry ∈ str <$> col ∧ check_against_iso search_fuzzy entry = false.
Proof.
  unfold problem_locations. rewrite list_elem_of_filter, !list_elem_of_fmap.
  split.
  - intros [? (y & ? & Hy)]. apply (proj1 (unique_elem_of col y)) in Hy. eauto.
  - intros [(y & ? & Hy) ?]. apply (proj2 (unique_elem_of col y)) in Hy. eauto.
Qed.

(** On an entry of the column, the membership test of line 252 is the
    check of line 245. *)
Lemma improved_location_unfold col entry :
  entry ∈ col →
  improved_location (problem_locations search_fuzzy (unique col)) entry =
  improved_location_of search_fuzzy entry.
Proof.
  intros Hin. unfold improved_location, improved_location_of.
  destruct (check_against_iso search_fuzzy (str entry)) eqn:Hcheck.
  - rewrite bool_decide_eq_false_2; [done|].
    rewrite problem_locations_elem_of. intros [_ ?]. congruence.
  - rewrite bool_decide_eq_true_2; [done|].
    rewrite problem_locations_elem_of. split; [|done].
    apply list_elem_of_fmap. by exists entry.
Qed.

Lemma improved_locations_cons (problem_locations : list string) entry col :
  improved_locations problem_locations (entry :: col) =
  (cleaned_location ← improved_location problem_locations entry;
   rest ← improved_locations problem_locations col;
   Ok (cleaned_location :: rest)).
Proof. reflexivity. Qed.

Lemma kept_rows_unfold (problem_locations : list string) df :
  (∀ r, r ∈ df → is_highlight r →
        improved_location problem_locations (Location r) =
        improved_location_of search_fuzzy (Location r)) →
  (improved ←
     improved_locations problem_locations (Location <$> filter is_highlight df);
   Ok (dropna (zip_with mk_highlight_row (filter is_highlight df) improved)))
  = kept_rows search_fuzzy df.
Proof.
  induction df as [|r df IH]; intros Hloc; [done|].
  assert (∀ r', r' ∈ df → is_highlight r' →
            improved_location problem_locations (Location r') =
            improved_location_of search_fuzzy (Location r')) as Hloc'.
  { intros r' Hin. apply Hloc. by right. }
  specialize (IH Hloc'). simpl kept_rows.
  destruct (decide (is_highlight r)) as [Hr|Hr].
  - rewrite filter_cons_True by done. rewrite fmap_cons, <- IH.
    rewrite improved_locations_cons, (Hloc r) by (done || by left).
    destruct (improved_location_of search_fuzzy (Location r)) as [x|e];
      [|done].
    destruct (improved_locations problem_locations
                (Location <$> filter is_highlight df)) as [improved|e];
      [|done].
    simpl. f_equal. unfold dropna. destruct x as [|s]; simpl.
    + by rewrite filter_cons_False by (simpl; by intros ?).
    + by rewrite filter_cons_True by done.
  - by rewrite filter_cons_False by done.
Qed.

(** The pass, in terms of [kept_rows]. *)
Lemma highlight_pass_unfold st :
  highlight_pass search_fuzzy st =
  (kept ← kept_rows search_fuzzy (st_df st);
   Ok {| st_df := st_df st;
         st_dept_info := st_dept_info st;
         st_filtered_values_dept := st_filtered_values_dept st;
         st_numbers_by_year := st_numbers_by_year st;
         st_numbers_by_decade := st_numbers_by_decade st;
         st_problem_locations :=
           problem_locations search_fuzzy
             (unique (Location <$> filter is_highlight (st_df st)));
         st_highlight_values := kept;
         st_highlight_numbers := highlight_numbers kept |}).
Proof.
  unfold highlight_pass.
  rewrite <- (kept_rows_unfold
    (problem_locations search_fuzzy
       (unique (Location <$> filter is_highlight (st_df st)))) (st_df st)).
  - by destruct (improved_locations _ _).
  - intros r Hin Hr. apply improved_location_unfold.
    apply list_elem_of_fmap. exists r. split; [done|].
    by apply list_elem_of_filter.
Qed.

Lemma kept_rows_app df1 df2 :
  kept_rows search_fuzzy (df1 ++ df2) =
  (kept1 ← kept_rows search_fuzzy df1;
   kept2 ← kept_rows search_fuzzy df2;
   Ok (kept1 ++ kept2)).
Proof.
  induction df1 as [|r df1 IH]; simpl.
  - by destruct (kept_rows search_fuzzy df2).
  - destruct (decide (is_highlight r)); [|done].
    destruct (improved_location_of search_fuzzy (Location r)) as [x|e];
      simpl; [|done].
    rewrite IH.
    destruct (kept_rows search_fuzzy df1) as [kept1|e]; simpl; [|done].
    destruct (kept_rows search_fuzzy df2) as [kept2|e]; simpl; [|done].
    by destruct (isna x).
Qed.

(** A row that is no highlight, or whose improved location is missing,
    leaves the kept rows as they are without it. *)
Lemma kept_rows_without df1 r df2 :
  ¬ is_highlight r ∨ improved_location_of search_fuzzy (Location r) = Ok NaN →
  kept_rows search_fuzzy (df1 ++ r :: df2) = kept_rows search_fuzzy (df1 ++ df2).
Proof.
  intros Hr. rewrite !kept_rows_app. f_equal. simpl.
  destruct (decide (is_highlight r)) as [Hhl|Hhl]; [|done].
  destruct Hr as [?|Hnan]; [done|]. simpl. rewrite Hnan.
  by destruct (kept_rows search_fuzzy df2).
Qed.

(** What a kept row is. *)
Lemma kept_rows_elem_of df (kept : list highlight_row) h :
  kept_rows search_fuzzy df = Ok kept → h ∈ kept →
  highlight h ∈ df ∧ is_highlight (highlight h) ∧
  improved_location_of search_fuzzy (Location (highlight h))
    = Ok (Improved_Location h) ∧
  Improved_Location h ≠ NaN.
Proof.
  revert kept. induction df as [|r df IH]; intros kept; simpl.
  - intros [= <-] Hin. by apply elem_of_nil in Hin.
  - destruct (decide (is_highlight r)) as [Hr|Hr].
    + destruct (improved_location_of search_fuzzy (Location r)) as [x|e] eqn:Hx;
        simpl; [|done].
      destruct (kept_rows search_fuzzy df) as [kept'|e]; simpl; [|done].
      intros [= <-] Hin.
      assert (h ∈ kept' → highlight h ∈ r :: df ∧ is_highlight (highlight h) ∧
              improved_location_of search_fuzzy (Location (highlight h))
                = Ok (Improved_Location h) ∧
              Improved_Location h ≠ NaN) as Hrest.
      { intros Hin'. destruct (IH kept' eq_refl Hin') as (? & ? & ? & ?).
        split_and!; [by right|done..]. }
      destruct x as [|s]; simpl in Hin; [by apply Hrest|].
      apply elem_of_cons in Hin as [->|Hin]; [|by apply Hrest].
      simpl. split_and!; [by left|done..].
    + intros Hkept Hin. destruct (IH kept Hkept Hin) as (? & ? & ? & ?).
      split_and!; [by right|done..].
Qed.

End Pass.

Section Frame.

Variable search_fuzzy : string → Py.result (list string).

Implicit Types (r : row) (st : module_state) (h : highlight_row).

(** The pass binds the highlight variables and nothing else. *)
Lemma highlight_pass_Ok st st' :
  highlight_pass search_fuzzy st = Ok st' →
  kept_rows search_fuzzy (st_df st) = Ok (st_highlight_values st') ∧
  st_highlight_numbers st' = highlight_numbers (st_highlight_values st') ∧
  st_problem_locations st' =
    problem_locations search_fuzzy
      (unique (Location <$> filter is_highlight (st_df st))) ∧
  st_df st' = st_df st ∧
  st_dept_info st' = st_dept_info st ∧
  st_filtered_values_dept st' = st_filtered_values_dept st ∧
  st_numbers_by_year st' = st_numbers_by_year st ∧
  st_numbers_by_decade st' = st_numbers_by_decade st.
Proof.
  rewrite highlight_pass_unfold.
  destruct (kept_rows search_fuzzy (st_df st)) as [kept|e]; simpl; [|done].
  by intros [= <-].
Qed.

Lemma contributes_nothing_intro st st' r :
  highlight_pass search_fuzzy st = Ok st' →
  ¬ is_highlight r ∨ improved_location_of search_fuzzy (Location r) = Ok NaN →
  contributes_nothing search_fuzzy st st' r.
Proof.
  intros (Hkept & Hnum & _)%highlight_pass_Ok Hr. split.
  - intros h Hin <-.
    destruct (kept_rows_elem_of search_fuzzy _ _ h Hkept Hin)
      as (_ & Hhl & Himp & Hnan).
    destruct Hr as [Hr|Hr]; [done|]. rewrite Hr in Himp. by simplify_eq.
  - intros df1 df2 Hdf. rewrite highlight_pass_unfold. simpl.
    rewrite <- (kept_rows_without search_fuzzy df1 r df2 Hr), <- Hdf, Hkept.
    simpl. eauto.
Qed.

End Frame.

(** C8. The normalisation is applied to highlights only.  For every row of
    [df] that is not a highlight, the pass leaves the table [df], and so the
    row's location and all its other fields, as they were; every row given
    an improved location is a highlight; and the row adds nothing to the
    highlight table and its counts. *)
Theorem non_highlight_row_untouched
    (search_fuzzy : string → Py.result (list string))
    (st st' : module_state) (r : row) :
  highlight_pass search_fuzzy st = Ok st' →
  r ∈ st_df st → ¬ is_highlight r →
  st_df st' = st_df st ∧ r ∈ st_df st' ∧
  (∀ h, h ∈ st_highlight_values st' → is_highlight (highlight h)) ∧
  contributes_nothing search_fuzzy st st' r.
Proof.
  intros Hpass Hin Hr.
  pose proof (highlight_pass_Ok search_fuzzy st st' Hpass)
    as (Hkept & _ & _ & Hdf & _).
  split_and!.
  - done.
  - by rewrite Hdf.
  - intros h Hh.
    by destruct (kept_rows_elem_of search_fuzzy _ _ h Hkept Hh) as (_ & ? & _).
  - apply contributes_nothing_intro; [done|by left].
Qed.

(** C6. For every text without separator that has a discard word, the
    cleaner returns the missing value, and a highlight row with that
    problem location adds nothing to the highlight table and its counts. *)
Theorem discard_word_row_dropped
    (search_fuzzy : string → Py.result (list string)) (entry : string) :
  no_separator entry → has_discard_word entry →
  clean_up_location_problems entry = Ok NaN ∧
  ∀ (st st' : module_state) (r : row),
    highlight_pass search_fuzzy st = Ok st' →
    r ∈ st_df st → is_highlight r → str (Location r) = entry →
    entry ∈ st_problem_locations st' →
    contributes_nothing search_fuzzy st st' r.
Proof.
  intros Hbar Hdis.
  pose proof (clean_discard entry Hbar Hdis) as Hclean.
  split; [done|]. intros st st' r Hpass Hin Hr Hloc Hproblem.
  apply contributes_nothing_intro; [done|]. right.
  apply highlight_pass_Ok in Hpass as (_ & _ & Hpl & _).
  rewrite Hpl in Hproblem.
  apply problem_locations_elem_of in Hproblem as [_ Hcheck].
  unfold improved_location_of. by rewrite Hloc, Hcheck.
Qed.

Lemma sample_pass_returns :
  ∃ st', highlight_pass finds_all (load_clean_aggregate sample_table) = Ok st'.
Proof. eexists. vm_compute. reflexivity. Defined.

Lemma non_highlight_row_untouched_witness :
  ∃ st',
    highlight_pass finds_all (load_clean_aggregate sample_table) = Ok st' ∧
    st_df st' = st_df (load_clean_aggregate sample_table) ∧
    contributes_nothing finds_all (load_clean_aggregate sample_table) st'
      (sample_row "29.100.2" "Italy" "False").
Proof.
  destruct sample_pass_returns as [st' Hst']. exists st'.
  destruct (non_highlight_row_untouched finds_all
              (load_clean_aggregate sample_table) st'
              (sample_row "29.100.2" "Italy" "False") Hst')
    as (Hdf & _ & _ & Hnothing).
  - right. left.
  - intros Hr. vm_compute in Hr. discriminate Hr.
  - done.
Defined.

Lemma discard_word_row_dropped_witness :
  clean_up_location_problems "France or Italy" = Ok NaN ∧
  ∃ st',
    highlight_pass finds_all (load_clean_aggregate sample_table) = Ok st' ∧
    contributes_nothing finds_all (load_clean_aggregate sample_table) st'
      (sample_row "29.100.3" "France or Italy" "True").
Proof.
  assert (no_separator "France or Italy") as Hbar by reflexivity.
  assert (has_discard_word "France or Italy") as Hdis.
  { exists "or". split; [by right; left|]. vm_compute. reflexivity. }
  destruct (discard_word_row_dropped finds_all "France or Italy" Hbar Hdis)
    as [Hclean Hrow].
  split; [exact Hclean|].
  destruct sample_pass_returns as [st' Hst']. exists st'.
  split; [exact Hst'|].
  apply (Hrow (load_clean_aggregate sample_table) st' _ Hst').
  - do 2 right. left.
  - reflexivity.
  - reflexivity.
  - apply highlight_pass_Ok in Hst' as (_ & _ & -> & _).
    vm_compute. right. left.
Defined.

(** C2 fails on the code: [France] names a country of the reference, and
    whatever the lookup finds, the check fails, [France] is listed as a
    problem location, the cleaner turns it into the missing value, and the
    row is dropped. *)
Theorem reference_country_fails_check
    (search_fuzzy : string → Py.result (list string)) :
  check_against_iso search_fuzzy "France" = false ∧
  ∃ st, run search_fuzzy [sample_record "29.100.4" "France" "True"] = Ok st ∧
        st_problem_locations st = ["France"] ∧
        st_highlight_values st = [] ∧
        st_highlight_numbers st = ∅.
Proof.
  split; [reflexivity|]. eexists. split; [vm_compute; reflexivity|].
  split_and!; reflexivity.
Qed.

(** One highlight whose location is a bare directional word stops the
    whole pass. *)
Lemma run_raises_on_bare_direction
    (search_fuzzy : string → Py.result (list string)) :
  run search_fuzzy [sample_record "29.100.5" "Northern" "True"]
  = Raise IndexError.
Proof. vm_compute. reflexivity. Qed.

(** The sample table, through the whole pass: the highlight from England is
    counted under [United Kingdom], nothing else is counted. *)
Lemma run_sample_table (search_fuzzy : string → Py.result (list string)) :
  ∃ st, run search_fuzzy sample_table = Ok st ∧
        st_highlight_numbers st = {[ "United Kingdom" := 1%nat ]} ∧
        st_dept_info st = {[ "Asian Art" := 3%nat ]}.
Proof.
  eexists. split; [vm_compute; reflexivity|]. split; vm_compute; reflexivity.
Qed.

(** ** The table the pass leaves *)

(** Re-typing the flag changes a missing flag only. *)
Lemma Is_Highlight_astype_str_text (r : record) (flag : string) :
  Is_Highlight r = Str flag → Is_Highlight_astype_str r = r.
Proof. destruct r. simpl. by intros ->. Qed.

(** After a run, [df] is the table of line 189: the rows kept by line 37
    with their two derived columns, the flag as text. *)
Lemma run_df (search_fuzzy : string → Py.result (list string))
    (table : list record) (st : module_state) :
  run search_fuzzy table = Ok st →
  st_df st = row_Is_Highlight_astype_str <$> clean table.
Proof. by intros (_ & _ & _ & -> & _)%highlight_pass_Ok. Qed.

(** * Further properties of the pass *)

(** ** Counting *)

Section Counting.

Context {A : Type}.

Implicit Types (P Q : A → Prop) (l : list A).

Lemma count_rows_cons P `{!∀ x, Decision (P x)} (x : A) l :
  count_rows P (x :: l) =
  if decide (P x) then S (count_rows P l) else count_rows P l.
Proof.
  unfold count_rows. destruct (decide (P x)).
  - by rewrite filter_cons_True.
  - by rewrite filter_cons_False.
Qed.

Lemma count_rows_ext P Q `{!∀ x, Decision (P x)} `{!∀ x, Decision (Q x)} l :
  (∀ x, x ∈ l → P x ↔ Q x) → count_rows P l = count_rows Q l.
Proof.
  induction l as [|x l IH]; intros Hext; [done|].
  rewrite !count_rows_cons, IH by (intros y Hy; apply Hext; by right).
  pose proof (Hext x (list_elem_of_here x l)) as Hx.
  destruct (decide (P x)), (decide (Q x)); tauto.
Qed.

Lemma count_rows_mono P Q `{!∀ x, Decision (P x)} `{!∀ x, Decision (Q x)} l :
  (∀ x, x ∈ l → P x → Q x) → (count_rows P l ≤ count_rows Q l)%nat.
Proof.
  induction l as [|x l IH]; intros Himp; [done|].
  assert (count_rows P l ≤ count_rows Q l)%nat as Hle
    by (apply IH; intros y Hy; apply Himp; by right).
  rewrite !count_rows_cons.
  pose proof (Himp x (list_elem_of_here x l)) as Hx.
  destruct (decide (P x)), (decide (Q x)); try lia. tauto.
Qed.

Lemma count_rows_pos P `{!∀ x, Decision (P x)} l :
  (0 < count_rows P l)%nat ↔ ∃ x, x ∈ l ∧ P x.
Proof.
  induction l as [|x l IH].
  - split; [unfold count_rows; simpl; lia|]. by intros (x & ?%elem_of_nil & _).
  - rewrite count_rows_cons. destruct (decide (P x)) as [Hx|Hx].
    + split; [|lia]. intros _. exists x. split; [by left|done].
    + rewrite IH. split.
      * intros (y & Hy & HP). exists y. split; [by right|done].
      * intros (y & Hy & HP). apply elem_of_cons in Hy as [->|Hy]; [done|].
        by exists y.
Qed.

Lemma count_rows_filter P Q `{!∀ x, Decision (P x)} `{!∀ x, Decision (Q x)} l :
  count_rows P (filter Q l) = count_rows (λ x, Q x ∧ P x) l.
Proof.
  induction l as [|x l IH]; [done|].
  rewrite (count_rows_cons (λ x, Q x ∧ P x)).
  destruct (decide (Q x)) as [HQ|HQ].
  - rewrite filter_cons_True, count_rows_cons, IH by done.
    destruct (decide (P x)), (decide (Q x ∧ P x)); tauto.
  - rewrite filter_cons_False, IH by done.
    destruct (decide (Q x ∧ P x)); tauto.
Qed.

End Counting.

Lemma count_rows_fmap {A B : Type} (f : B → A) (P : A → Prop) `{!∀ x, Decision (P x)}
    (l : list B) :
  count_rows P (f <$> l) = count_rows (λ x, P (f x)) l.
Proof.
  induction l as [|x l IH]; [done|].
  rewrite fmap_cons, count_rows_cons, IH.
  by rewrite (count_rows_cons (λ x, P (f x))).
Qed.

Lemma count_rows_omap {A B : Type} `{EqDecision A} (g : B → option A) (k : A)
    (l : list B) :
  count_rows (λ y, y = k) (omap g l) = count_rows (λ x, g x = Some k) l.
Proof.
  induction l as [|x l IH]; [done|].
  rewrite (count_rows_cons (λ x, g x = Some k)). simpl.
  destruct (g x) as [y|] eqn:Hg; change (list_omap B A g l) with (omap g l).
  - rewrite (count_rows_cons (λ y, y = k)), IH.
    destruct (decide (y = k)), (decide (Some y = Some k)); congruence.
  - rewrite IH. by destruct (decide (None = Some k)).
Qed.

(** [value_counts] gives each entry of the column the number of times it
    occurs, and nothing to what does not occur. *)
Lemma value_counts_lookup `{Countable K} (col : list K) (k : K) (n : nat) :
  value_counts col !! k = Some n ↔
  (0 < n)%nat ∧ n = count_rows (λ x, x = k) col.
Proof.
  revert n. induction col as [|x col IH]; intros n.
  - unfold value_counts, count_rows. simpl. rewrite lookup_empty.
    split; [done|lia].
  - change (value_counts (x :: col))
      with (<[x := S (default O (value_counts col !! x))]> (value_counts col)).
    rewrite count_rows_cons. destruct (decide (x = k)) as [->|Hne].
    + rewrite lookup_insert_eq.
      destruct (value_counts col !! k) as [m|]; simpl.
      * destruct (proj1 (IH m) eq_refl) as [_ <-].
        split; [intros [= <-]|intros [_ ->]]; done || lia.
      * assert (count_rows (λ x, x = k) col = O) as ->.
        { destruct (count_rows (λ x, x = k) col) as [|m]; [done|].
          assert (@None nat = Some (S m)) as Hm'; [|done].
          apply IH. split; [lia|done]. }
        split; [intros [= <-]|intros [_ ->]]; done || lia.
    + by rewrite lookup_insert_ne, IH.
Qed.

(** ** The counting tables *)

Lemma department_name_clean (rec : record) :
  department_name (add_derived_columns (Department_astype_str rec))
  = str (Department rec).
Proof. reflexivity. Qed.

(** The rows of [df], in terms of the rows read. *)
Lemma count_rows_clean (P : row → Prop) `{!∀ r, Decision (P r)}
    (table : list record) :
  count_rows P (clean table) =
  count_rows
    (λ rec, str (Department rec) ≠ "The Libraries" ∧
            P (add_derived_columns (Department_astype_str rec))) table.
Proof.
  unfold clean, drop_libraries.
  rewrite count_rows_fmap, count_rows_filter, count_rows_fmap.
  apply count_rows_ext. intros rec _. simpl. split.
  - intros [Hne HP]. split; [|done]. intros Heq. apply Hne. by rewrite Heq.
  - intros [Hne HP]. split; [|done]. by intros [= Heq].
Qed.

Lemma elem_of_clean (r : row) (table : list record) :
  r ∈ clean table →
  ∃ rec, rec ∈ table ∧ r = add_derived_columns (Department_astype_str rec) ∧
         str (Department rec) ≠ "The Libraries".
Proof.
  unfold clean, drop_libraries.
  intros (rec' & -> & Hin)%list_elem_of_fmap.
  apply list_elem_of_filter in Hin as [Hne Hin].
  apply list_elem_of_fmap in Hin as (rec & -> & Hin).
  exists rec. split_and!; [done..|]. intros Heq. apply Hne. simpl. by rewrite Heq.
Qed.

(** X1. The table of objects by department gives every department other
    than The Libraries the number of rows read whose department prints as
    that name (a missing department prints as [nan]); The Libraries and the
    names of no row have no entry. *)
Theorem dept_info_counts (table : list record) (name : string) (n : nat) :
  dept_info (clean table) !! name = Some n ↔
  name ≠ "The Libraries" ∧ (0 < n)%nat ∧
  n = count_rows (λ rec, str (Department rec) = name) table.
Proof.
  unfold dept_info.
  rewrite value_counts_lookup, count_rows_fmap, count_rows_clean.
  destruct (decide (name = "The Libraries")) as [->|Hname].
  - assert (count_rows
              (λ rec, str (Department rec) ≠ "The Libraries" ∧
                      department_name
                        (add_derived_columns (Department_astype_str rec))
                      = "The Libraries") table = O) as ->.
    { destruct (count_rows _ table) eqn:Hcount; [done|].
      assert (0 < count_rows
                (λ rec, str (Department rec) ≠ "The Libraries" ∧
                        department_name
                          (add_derived_columns (Department_astype_str rec))
                        = "The Libraries") table)%nat as Hpos by lia.
      apply count_rows_pos in Hpos as (rec & _ & Hne & Heq).
      by rewrite department_name_clean in Heq. }
    split; [lia|]. by intros [? _].
  - rewrite (count_rows_ext _ (λ rec, str (Department rec) = name)).
    + split; [by intros [? ?]|by intros (_ & ? & ?)].
    + intros rec _. rewrite department_name_clean. split; [by intros [_ ?]|].
      intros <-. done.
Qed.

(** X2. No department has more objects in the table for 1923 than in the
    table of all objects. *)
Theorem filtered_values_dept_le (df : list row) (name : string) (n : nat) :
  filtered_values_dept df !! name = Some n →
  ∃ m, dept_info df !! name = Some m ∧ (n ≤ m)%nat.
Proof.
  unfold filtered_values_dept, dept_info.
  rewrite value_counts_lookup, count_rows_fmap, count_rows_filter.
  intros [Hpos ->].
  assert (count_rows (λ r, acquired_by_1923 r ∧ department_name r = name) df
          ≤ count_rows (λ r, department_name r = name) df)%nat as Hle.
  { apply count_rows_mono. by intros r _ [_ ?]. }
  exists (count_rows (λ r, department_name r = name) df). split; [|done].
  apply value_counts_lookup. rewrite count_rows_fmap. split; [lia|done].
Qed.

Lemma filtered_values_dept_le_witness :
  filtered_values_dept (clean sample_table) !! "Asian Art" = Some 3%nat ∧
  ∃ m, dept_info (clean sample_table) !! "Asian Art" = Some m ∧ (3 ≤ m)%nat.
Proof.
  assert (filtered_values_dept (clean sample_table) !! "Asian Art"
          = Some 3%nat) as Hn by (vm_compute; reflexivity).
  split; [exact Hn|].
  exact (filtered_values_dept_le (clean sample_table) "Asian Art" 3 Hn).
Defined.

Lemma drop_lehman_lookup (numbers_df : gmap (string * Z) nat)
    (name : string) (key : Z) (n : nat) :
  drop_lehman numbers_df !! (name, key) = Some n ↔
  name ≠ "Robert Lehman Collection" ∧ numbers_df !! (name, key) = Some n.
Proof.
  unfold drop_lehman. rewrite map_lookup_filter_Some. simpl. tauto.
Qed.

(** X3. The table of acquisitions by year gives a department and a year the
    number of rows of that department with that cleaned year; the rows
    without a year and the Robert Lehman Collection are not in it. *)
Theorem numbers_by_year_counts (df : list row) (name : string) (year : Z)
    (n : nat) :
  numbers_by_year df !! (name, year) = Some n ↔
  name ≠ "Robert Lehman Collection" ∧ (0 < n)%nat ∧
  n = count_rows (λ r, department_name r = name ∧
                       Cleaned_Accession_Year r = Some year) df.
Proof.
  unfold numbers_by_year.
  rewrite drop_lehman_lookup, value_counts_lookup, count_rows_omap.
  rewrite (count_rows_ext _ (λ r, department_name r = name ∧
                                  Cleaned_Accession_Year r = Some year)).
  - tauto.
  - intros r _. destruct (Cleaned_Accession_Year r) as [y|]; simpl.
    + split; [by intros [= -> ->]|by intros [-> [= ->]]].
    + split; [done|by intros [_ ?]].
Qed.

Lemma numbers_by_decade_counts (df : list row) (name : string) (dec : Z)
    (n : nat) :
  numbers_by_decade df !! (name, dec) = Some n ↔
  name ≠ "Robert Lehman Collection" ∧ (0 < n)%nat ∧
  n = count_rows (λ r, department_name r = name ∧
                       decade <$> Cleaned_Accession_Year r = Some dec) df.
Proof.
  unfold numbers_by_decade.
  rewrite drop_lehman_lookup, value_counts_lookup, count_rows_omap.
  rewrite (count_rows_ext _ (λ r, department_name r = name ∧
                                  decade <$> Cleaned_Accession_Year r
                                  = Some dec)).
  - tauto.
  - intros r _. destruct (Cleaned_Accession_Year r) as [y|]; simpl.
    + split; [by intros [= -> ->]|by intros [-> [= ->]]].
    + split; [done|by intros [_ ?]].
Qed.

(** X4. Every entry of the table by year is within an entry of the table by
    decade: the objects a department acquired in a year are among those it
    acquired in the decade of that year. *)
Theorem numbers_by_year_within_decade (df : list row) (name : string)
    (year : Z) (n : nat) :
  numbers_by_year df !! (name, year) = Some n →
  ∃ m, numbers_by_decade df !! (name, decade year) = Some m ∧ (n ≤ m)%nat.
Proof.
  intros (Hname & Hpos & ->)%numbers_by_year_counts.
  assert (count_rows (λ r, department_name r = name ∧
                           Cleaned_Accession_Year r = Some year) df
          ≤ count_rows (λ r, department_name r = name ∧
                             decade <$> Cleaned_Accession_Year r
                             = Some (decade year)) df)%nat as Hle.
  { apply count_rows_mono. intros r _ [-> ->]. done. }
  eexists. split; [|exact Hle].
  apply numbers_by_decade_counts. split_and!; [done|lia|done].
Qed.

Lemma numbers_by_year_within_decade_witness :
  numbers_by_year (clean sample_table) !! ("Asian Art", 1923) = Some 3%nat ∧
  ∃ m, numbers_by_decade (clean sample_table) !! ("Asian Art", decade 1923)
       = Some m ∧ (3 ≤ m)%nat.
Proof.
  assert (numbers_by_year (clean sample_table) !! ("Asian Art", 1923)
          = Some 3%nat) as Hn by (vm_compute; reflexivity).
  split; [exact Hn|].
  exact (numbers_by_year_within_decade (clean sample_table) "Asian Art"
           1923 3 Hn).
Defined.

(** ** The range of the years *)

Lemma digit_value_range (c : ascii) :
  Re.digit c = true → 0 ≤ digit_value c ≤ 9.
Proof.
  unfold Re.digit, digit_value.
  intros [?%N.leb_le ?%N.leb_le]%andb_true_iff. lia.
Qed.

Lemma four_digits_range (m : string) :
  four_digits m → 0 ≤ decimal_value m ≤ 9999.
Proof.
  intros [Hlen Hdig].
  destruct m as [|a [|b [|c [|d [|? ?]]]]]; try discriminate Hlen.
  simpl in Hdig.
  apply andb_true_iff in Hdig as [Ha%digit_value_range Hdig].
  apply andb_true_iff in Hdig as [Hb%digit_value_range Hdig].
  apply andb_true_iff in Hdig as [Hc%digit_value_range Hdig].
  apply andb_true_iff in Hdig as [Hd%digit_value_range _].
  rewrite decimal_value_four. lia.
Qed.

Lemma cleaned_accession_year_str (entry : cell) :
  cleaned_accession_year entry = cleaned_accession_year (Str (str entry)).
Proof. by destruct entry. Qed.

(** X5. A cleaned accession year, when there is one, lies between 0 and
    9999. *)
Theorem cleaned_accession_year_range (entry : cell) (year : Z) :
  cleaned_accession_year entry = Some year → 0 ≤ year ≤ 9999.
Proof.
  rewrite cleaned_accession_year_str, cleaned_accession_year_search.
  intros (m & Hs & ->)%fmap_Some.
  apply four_digits_range. by apply search_Some in Hs as [? _].
Qed.

Lemma cleaned_accession_year_range_witness :
  cleaned_accession_year "1923" = Some 1923 ∧ 0 ≤ 1923 ≤ 9999.
Proof.
  assert (cleaned_accession_year "1923" = Some 1923) as Hy by reflexivity.
  split; [exact Hy|]. exact (cleaned_accession_year_range "1923" 1923 Hy).
Defined.

(** X6. A cell that prints in fewer than four characters, as a missing cell
    does, has no cleaned accession year. *)
Theorem cleaned_accession_year_short (entry : cell) :
  (String.length (str entry) < 4)%nat → cleaned_accession_year entry = None.
Proof.
  intros Hlen.
  rewrite cleaned_accession_year_str, cleaned_accession_year_search.
  destruct (Re.search Re.digit 4 (str entry)) as [m|] eqn:Hs; [|done].
  apply search_Some in Hs as ([Hm _] & p & [q Hq] & _).
  rewrite Hq, !length_app, Hm in Hlen. lia.
Qed.

Lemma cleaned_accession_year_short_witness :
  (String.length (str NaN) < 4)%nat ∧ cleaned_accession_year NaN = None.
Proof.
  assert (String.length (str NaN) < 4)%nat as Hlen by (simpl; lia).
  split; [exact Hlen|]. exact (cleaned_accession_year_short NaN Hlen).
Defined.

(** X7. Every entry of the table by decade, computed from rows read, is for
    a decade that is a multiple of ten between 0 and 9990, and for a
    department that is neither The Libraries nor the Robert Lehman
    Collection. *)
Theorem numbers_by_decade_keys (table : list record) (name : string)
    (dec : Z) (n : nat) :
  numbers_by_decade (clean table) !! (name, dec) = Some n →
  dec `mod` 10 = 0 ∧ 0 ≤ dec ≤ 9990 ∧
  name ≠ "The Libraries" ∧ name ≠ "Robert Lehman Collection".
Proof.
  intros (Hname & Hpos & ->)%numbers_by_decade_counts.
  apply count_rows_pos in Hpos as (r & Hin & <- & Hdec).
  apply elem_of_clean in Hin as (rec & _ & -> & Hlib).
  apply fmap_Some in Hdec as (year & Hyear & ->). simpl in Hyear.
  apply cleaned_accession_year_range in Hyear.
  rewrite department_name_clean in Hname |- *. unfold decade.
  pose proof (Z.div_mod year 10) as Hdiv.
  pose proof (Z.mod_pos_bound year 10) as Hmod.
  split_and!; [|lia..|done|done].
  by rewrite Z.mod_mul.
Qed.

Lemma numbers_by_decade_keys_witness :
  numbers_by_decade (clean sample_table) !! ("Asian Art", 1920) = Some 3%nat ∧
  1920 `mod` 10 = 0 ∧ 0 ≤ 1920 ≤ 9990.
Proof.
  assert (numbers_by_decade (clean sample_table) !! ("Asian Art", 1920)
          = Some 3%nat) as Hn by (vm_compute; reflexivity).
  split; [exact Hn|].
  destruct (numbers_by_decade_keys sample_table "Asian Art" 1920 3 Hn)
    as (Hmod & Hrange & _).
  split; [exact Hmod|exact Hrange].
Defined.

(** ** The other clauses of the cleaner *)

Section Clauses.

Implicit Types (entry w : string).

Lemma not_word_in_set (ws : list string) (X : gset string) :
  (¬ ∃ w, w ∈ ws ∧ w ∈ X) →
  bool_decide (list_to_set ws ∩ X ≠ ∅) = false.
Proof. intros Hno. apply bool_decide_eq_false_2. by rewrite word_in_set. Qed.

(** The clauses after the directional one are reached when the first three
    tests fail. *)
Lemma clean_after_direction entry :
  no_separator entry → ¬ has_discard_word entry →
  ¬ has_directional_word entry →
  clean_up_location_problems entry =
  if bool_decide (entry = "England") then Ok (Str "United Kingdom")
  else if bool_decide ("present-day" ∈ split entry) then
    cleaned_location ← getitem (split entry) 1; Ok (Str cleaned_location)
  else if contains "formerly" entry then
    cleaned_location ← getitem (split entry) 0; Ok (Str cleaned_location)
  else if bool_decide (entry ∈ islands) then Ok (Str "French Polynesia")
  else match outliers !! entry with
       | Some cleaned_location => Ok (Str cleaned_location)
       | None => Ok NaN
       end.
Proof.
  intros Hbar Hdis Hdir. unfold clean_up_location_problems, str.
  by rewrite Hbar, !not_word_in_set.
Qed.

Lemma getitem_elem_of {A} (xs : list A) (i : nat) (x : A) :
  getitem xs i = Ok x → x ∈ xs.
Proof.
  unfold getitem. destruct (xs !! i) as [y|] eqn:Hy; [|done].
  intros [= <-]. by apply list_elem_of_lookup_2 in Hy.
Qed.

End Clauses.

(** X8. The clause for [present-day]: a text of at least two words that has
    the word [present-day], no separator, no discard word and no directional
    word is cleaned to its second word. *)
Theorem present_day_second_word (entry w0 w1 : string) (rest : list string) :
  no_separator entry → ¬ has_discard_word entry →
  ¬ has_directional_word entry →
  "present-day" ∈ split entry → split entry = w0 :: w1 :: rest →
  clean_up_location_problems entry = Ok (Str w1).
Proof.
  intros Hbar Hdis Hdir Hpd Hwords.
  rewrite clean_after_direction by done.
  rewrite bool_decide_eq_false_2.
  - by rewrite bool_decide_eq_true_2, Hwords.
  - intros ->. vm_compute in Hwords. discriminate Hwords.
Qed.

Lemma present_day_second_word_witness :
  clean_up_location_problems "present-day Uzbekistan" = Ok (Str "Uzbekistan").
Proof.
  apply (present_day_second_word "present-day Uzbekistan"
           "present-day" "Uzbekistan" []).
  - reflexivity.
  - apply no_word_in. vm_compute. reflexivity.
  - apply no_word_in. vm_compute. reflexivity.
  - left.
  - reflexivity.
Defined.

(** X9. The clause for [formerly]: a text in which [formerly] occurs, with
    no separator, no discard word, no directional word and not the word
    [present-day], has a first word, and is cleaned to it. *)
Theorem formerly_first_word (entry : string) :
  no_separator entry → ¬ has_discard_word entry →
  ¬ has_directional_word entry → "present-day" ∉ split entry →
  contains "formerly" entry = true →
  ∃ w ws, split entry = w :: ws ∧
          clean_up_location_problems entry = Ok (Str w).
Proof.
  intros Hbar Hdis Hdir Hpd Hformerly.
  destruct (split_contains_formerly entry Hformerly) as (w & ws & Hwords).
  exists w, ws. split; [done|].
  rewrite clean_after_direction by done.
  rewrite bool_decide_eq_false_2.
  - by rewrite bool_decide_eq_false_2, Hformerly, Hwords.
  - intros ->. vm_compute in Hformerly. discriminate Hformerly.
Qed.

Lemma formerly_first_word_witness :
  ∃ w ws, split "Myanmar (formerly Burma)" = w :: ws ∧
          clean_up_location_problems "Myanmar (formerly Burma)" = Ok (Str w).
Proof.
  apply (formerly_first_word "Myanmar (formerly Burma)").
  - reflexivity.
  - apply no_word_in. vm_compute. reflexivity.
  - apply no_word_in. vm_compute. reflexivity.
  - intros Hin. vm_compute in Hin.
    repeat (apply elem_of_cons in Hin as [Hin|Hin]; [discriminate Hin|]).
    by apply elem_of_nil in Hin.
  - reflexivity.
Defined.

(** X10. The cleaner makes up no text: what it returns is a part between
    separators of the text given, or one of its words, or one of the fixed
    replacements. *)
Theorem cleaner_returns_part_or_replacement (entry : cell) (s : string) :
  clean_up_location_problems entry = Ok (Str s) →
  s ∈ split_on "|" (str entry) ∨ s ∈ split (str entry) ∨
  s = "United Kingdom" ∨ s = "French Polynesia" ∨
  ∃ key, outliers !! key = Some s.
Proof.
  unfold clean_up_location_problems.
  destruct (contains "|" (str entry)).
  { case_bool_decide; [|done].
    destruct (getitem (split_on "|" (str entry)) 0) as [part|] eqn:Hpart;
      [|done].
    intros [= <-]. left. by apply getitem_elem_of in Hpart. }
  case_bool_decide; [done|].
  assert (∀ i, (cleaned_location ← getitem (split (str entry)) i;
                Ok (Str cleaned_location)) = Ok (Str s) →
               s ∈ split (str entry)) as Hword.
  { intros i. destruct (getitem (split (str entry)) i) as [w|] eqn:Hw;
      [|done].
    intros [= <-]. by apply getitem_elem_of in Hw. }
  case_bool_decide; [intros ?%Hword; auto|].
  case_bool_decide; [intros [= <-]; auto|].
  case_bool_decide; [intros ?%Hword; auto|].
  destruct (contains "formerly" (str entry)); [intros ?%Hword; auto|].
  case_bool_decide; [intros [= <-]; auto|].
  destruct (outliers !! str entry) as [v|] eqn:Hv; [|done].
  intros [= <-]. do 4 right. by exists (str entry).
Qed.

Lemma cleaner_returns_part_or_replacement_witness :
  "China" ∈ split_on "|" "Tibet" ∨ "China" ∈ split "Tibet" ∨
  "China" = "United Kingdom" ∨ "China" = "French Polynesia" ∨
  ∃ key, outliers !! key = Some "China".
Proof.
  apply (cleaner_returns_part_or_replacement "Tibet" "China").
  vm_compute. reflexivity.
Defined.

(** X11. The cleaner raises only [IndexError], and exactly on a text of one
    word, without separator, whose word is no discard word and is a
    directional word or [present-day]. *)
Theorem cleaner_raises_exactly_on_one_word (entry : string) (e : exn) :
  clean_up_location_problems entry = Raise e ↔
  e = IndexError ∧ no_separator entry ∧ ¬ has_discard_word entry ∧
  (has_directional_word entry ∨ "present-day" ∈ split entry) ∧
  ∃ w, split entry = [w].
Proof. apply clean_up_location_problems_Raise. Qed.

(** ** The pass as a whole *)

Section Whole.

Variable search_fuzzy : string → Py.result (list string).

Implicit Types (df : list row) (r : row) (st : module_state).

Lemma improved_location_of_clean (entry : cell) :
  improved_location_of search_fuzzy entry
  = clean_up_location_problems (str entry).
Proof. reflexivity. Qed.

(** The first highlight on which the cleaner raises stops the loop. *)
Lemma kept_rows_Raise df (e : exn) :
  kept_rows search_fuzzy df = Raise e →
  ∃ r, r ∈ df ∧ is_highlight r ∧
       clean_up_location_problems (str (Location r)) = Raise e.
Proof.
  induction df as [|r df IH]; simpl; [done|].
  destruct (decide (is_highlight r)) as [Hr|Hr].
  - rewrite improved_location_of_clean.
    destruct (clean_up_location_problems (str (Location r))) as [x|e'] eqn:Hx;
      simpl.
    + destruct (kept_rows search_fuzzy df) as [kept|e'] eqn:Hkept; simpl;
        [done|].
      intros [= ->]. destruct (IH eq_refl) as (r' & ? & ? & ?).
      exists r'. split_and!; [by right|done..].
    + intros [= ->]. exists r. split_and!; [by left|done..].
  - intros Hkept. destruct (IH Hkept) as (r' & ? & ? & ?).
    exists r'. split_and!; [by right|done..].
Qed.

Lemma kept_rows_Ok df (kept : list highlight_row) r :
  kept_rows search_fuzzy df = Ok kept → r ∈ df → is_highlight r →
  ∃ x, clean_up_location_problems (str (Location r)) = Ok x.
Proof.
  revert kept. induction df as [|r' df IH]; intros kept Hkept Hin Hr.
  { by apply elem_of_nil in Hin. }
  simpl in Hkept. destruct (decide (is_highlight r')) as [Hr'|Hr'].
  - rewrite improved_location_of_clean in Hkept.
    destruct (clean_up_location_problems (str (Location r'))) as [x|e] eqn:Hx;
      simpl in Hkept; [|done].
    destruct (kept_rows search_fuzzy df) as [kept'|e] eqn:Hkept';
      simpl in Hkept; [|done].
    apply elem_of_cons in Hin as [->|Hin]; [by exists x|].
    by apply (IH kept').
  - apply elem_of_cons in Hin as [->|Hin]; [done|]. by apply (IH kept).
Qed.

(** The counts of line 265, in terms of the rows of [df]. *)
Lemma kept_rows_count df (kept : list highlight_row) (country : string) :
  kept_rows search_fuzzy df = Ok kept →
  count_rows (λ s, s = country)
    (omap (λ h, text (Improved_Location h)) kept) =
  count_rows
    (λ r, is_highlight r ∧
          clean_up_location_problems (str (Location r)) = Ok (Str country))
    df.
Proof.
  revert kept. induction df as [|r df IH]; intros kept.
  { by intros [= <-]. }
  rewrite (count_rows_cons
    (λ r, is_highlight r ∧
          clean_up_location_problems (str (Location r)) = Ok (Str country))).
  simpl. destruct (decide (is_highlight r)) as [Hr|Hr].
  - rewrite improved_location_of_clean.
    destruct (clean_up_location_problems (str (Location r))) as [x|e] eqn:Hx;
      simpl; [|done].
    destruct (kept_rows search_fuzzy df) as [kept'|e]; simpl; [|done].
    intros [= <-]. specialize (IH kept' eq_refl). destruct x as [|s]; simpl.
    + rewrite IH. by rewrite decide_False by (by intros [_ ?]).
    + change (list_omap _ _ ?f kept') with (omap f kept').
      rewrite (count_rows_cons (λ s, s = country)), IH.
      destruct (decide (s = country)) as [->|Hne].
      * by rewrite decide_True.
      * rewrite decide_False; [done|]. intros [_ [= ?]]. done.
  - intros Hkept. rewrite (IH kept Hkept).
    by rewrite decide_False by (by intros [? _]).
Qed.

End Whole.

(** X12. The pass stops with an exception exactly when the cleaner raises
    on the location of some highlight row, and the exception is
    [IndexError]. *)
Theorem highlight_pass_raises
    (search_fuzzy : string → Py.result (list string))
    (st : module_state) (e : exn) :
  highlight_pass search_fuzzy st = Raise e ↔
  e = IndexError ∧
  ∃ r, r ∈ st_df st ∧ is_highlight r ∧
       clean_up_location_problems (str (Location r)) = Raise IndexError.
Proof.
  rewrite highlight_pass_unfold. split.
  - destruct (kept_rows search_fuzzy (st_df st)) as [kept|e'] eqn:Hkept;
      simpl; [done|].
    intros [= ->].
    apply kept_rows_Raise in Hkept as (r & Hin & Hr & Hraise).
    pose proof (proj1 (clean_up_location_problems_Raise _ _) Hraise)
      as [-> _].
    split; [done|]. by exists r.
  - intros (-> & r & Hin & Hr & Hraise).
    destruct (kept_rows search_fuzzy (st_df st)) as [kept|e'] eqn:Hkept;
      simpl.
    + destruct (kept_rows_Ok search_fuzzy _ kept r Hkept Hin Hr) as [x Hx].
      congruence.
    + apply kept_rows_Raise in Hkept as (r' & _ & _ & Hraise').
      by pose proof (proj1 (clean_up_location_problems_Raise _ _) Hraise')
        as [-> _].
Qed.

(** X13. When the pass completes, the table of highlights by country gives a
    country the number of highlight rows whose location the cleaner turns
    into that country, and has an entry for no other text. *)
Theorem highlight_numbers_counts
    (search_fuzzy : string → Py.result (list string))
    (st st' : module_state) (country : string) (n : nat) :
  highlight_pass search_fuzzy st = Ok st' →
  st_highlight_numbers st' !! country = Some n ↔
  (0 < n)%nat ∧
  n = count_rows
        (λ r, is_highlight r ∧
              clean_up_location_problems (str (Location r))
              = Ok (Str country))
        (st_df st).
Proof.
  intros (Hkept & -> & _)%highlight_pass_Ok. unfold highlight_numbers.
  by rewrite value_counts_lookup, (kept_rows_count search_fuzzy _ _ _ Hkept).
Qed.

Lemma highlight_numbers_counts_witness :
  ∃ st',
    highlight_pass finds_all (load_clean_aggregate sample_table) = Ok st' ∧
    (st_highlight_numbers st' !! "United Kingdom" = Some 1%nat ↔
     (0 < 1)%nat ∧
     1%nat = count_rows
               (λ r, is_highlight r ∧
                     clean_up_location_problems (str (Location r))
                     = Ok (Str "United Kingdom"))
               (st_df (load_clean_aggregate sample_table))).
Proof.
  destruct sample_pass_returns as [st' Hst']. exists st'.
  split; [exact Hst'|].
  exact (highlight_numbers_counts finds_all _ st' "United Kingdom" 1 Hst').
Defined.

(** X14. The loop of lines 250-256, when it completes, has appended one
    improved location per entry of the column: the list assigned as a
    column at line 259 has the length of the table. *)
Theorem improved_locations_length (problem_locations : list string)
    (col improved : list cell) :
  improved_locations problem_locations col = Ok improved →
  length improved = length col.
Proof.
  revert improved. induction col as [|entry col IH]; intros improved.
  - by intros [= <-].
  - rewrite improved_locations_cons.
    destruct (improved_location problem_locations entry) as [x|e]; [|done].
    destruct (improved_locations problem_locations col) as [rest|e]; [|done].
    intros [= <-]. simpl. by rewrite (IH rest).
Qed.

Lemma improved_locations_length_witness :
  improved_locations ["Tibet"] [Str "Tibet"; Str "France"]
  = Ok [Str "China"; Str "France"] ∧
  length [Str "China"; Str "France"] = length [Str "Tibet"; Str "France"].
Proof.
  assert (improved_locations ["Tibet"] [Str "Tibet"; Str "France"]
          = Ok [Str "China"; Str "France"]) as Himp
    by (vm_compute; reflexivity).
  split; [exact Himp|].
  exact (improved_locations_length ["Tibet"] _ _ Himp).
Defined.

(** X15. When the pass completes, the problem locations are the locations
    of the highlight rows, all of them: no location passes the check. *)
Theorem problem_locations_are_highlight_locations
    (search_fuzzy : string → Py.result (list string))
    (st st' : module_state) (entry : string) :
  highlight_pass search_fuzzy st = Ok st' →
  entry ∈ st_problem_locations st' ↔
  ∃ r, r ∈ st_df st ∧ is_highlight r ∧ str (Location r) = entry.
Proof.
  intros (_ & _ & -> & _)%highlight_pass_Ok.
  rewrite problem_locations_elem_of, list_elem_of_fmap. split.
  - intros [(x & -> & Hx) _].
    apply list_elem_of_fmap in Hx as (r & -> & Hr).
    apply list_elem_of_filter in Hr as [Hr Hin]. by exists r.
  - intros (r & Hin & Hr & <-). split; [|apply check_against_iso_false].
    exists (Location r). split; [done|].
    apply list_elem_of_fmap. exists r. split; [done|].
    by apply list_elem_of_filter.
Qed.

Lemma problem_locations_are_highlight_locations_witness :
  ∃ st',
    highlight_pass finds_all (load_clean_aggregate sample_table) = Ok st' ∧
    ("England" ∈ st_problem_locations st' ↔
     ∃ r, r ∈ st_df (load_clean_aggregate sample_table) ∧ is_highlight r ∧
          str (Location r) = "England").
Proof.
  destruct sample_pass_returns as [st' Hst']. exists st'.
  split; [exact Hst'|].
  exact (problem_locations_are_highlight_locations finds_all _ st'
           "England" Hst').
Defined.

Lemma location_of_csv_row_witness :
  read_from_csv (sample_record "29.100.6" NaN "True") ∧
  clean_country_info_column (sample_record "29.100.6" NaN "True")
  = Str "nan".
Proof.
  assert (read_from_csv (sample_record "29.100.6" NaN "True")) as Hcsv.
  { unfold read_from_csv. simpl. split_and!; discriminate. }
  split; [exact Hcsv|].
  exact (location_of_csv_row (sample_record "29.100.6" NaN "True") Hcsv).
Defined.
